(** * IBC channel discovery and aggregation (utils/get_ibc_channels.py)

    A shallow embedding of the channel-discovery pipeline of
    [get_ibc_channels.py] and the properties of its conflict-resolution
    policy.

    Conventions of the embedding.
    - JSON documents returned by [json.loads] are values of type [value];
      a JSON object is an association list (first binding wins), a Python
      [dict] built by the script (a row, a leaf of the result) is an
      association list as well, so that its key names are part of the model.
      JSON numbers are integers; strings are ASCII.
    - The nested result is a [gmap]: the outer keys are the configured
      symbols, the inner keys are the hashable Python values a counterparty
      key can be.
    - A Python exception is represented by its message [str(e)], which is all
      the script ever reads of it.
    - The network is an explicit world state threaded through every request;
      a request is identified by the resource and the arguments that
      [urljoin] formats into its URL.
    - The [while True] loop of the paginator takes fuel; running out of it
      is the outcome [Diverge], which no [except] clause catches.
    - Calls to [logger] are left out: they do not touch the data. *)

From Stdlib Require Import ZArith String Ascii List Permutation Lia.
From stdpp Require Import base option gmap strings list.

Set Warnings "-register-all".

Local Open Scope string_scope.
Local Open Scope list_scope.
Local Open Scope Z_scope.

(** ** Python values *)

Inductive value : Type :=
| VNone
| VBool (b : bool)
| VInt (n : Z)
| VStr (s : string)
| VList (l : list value)
| VDict (d : list (string * value)).

Abbreviation dict := (list (string * value)).

(** Outcome of a computation: a value, a raised exception (its message), or
    a loop that ran out of fuel. *)
Inductive outcome (A : Type) : Type :=
| Ok (a : A)
| Raise (msg : string)
| Diverge.
Arguments Ok {A} a.
Arguments Raise {A} msg.
Arguments Diverge {A}.

Definition obind {A B} (m : outcome A) (f : A -> outcome B) : outcome B :=
  match m with
  | Ok a => f a
  | Raise e => Raise e
  | Diverge => Diverge
  end.

Notation "'try!' x <- m ; k" := (obind m (fun x => k))
  (at level 10, x name, m at level 100, k at level 200,
   format "'[v' 'try!'  x  <-  m ; '/' k ']'").

(** Truth value of a Python object ([bool(v)]). *)
Definition truthy (v : value) : bool :=
  match v with
  | VNone => false
  | VBool b => b
  | VInt n => negb (n =? 0)
  | VStr s => negb (String.eqb s "")
  | VList l => match l with [] => false | _ => true end
  | VDict d => match d with [] => false | _ => true end
  end.

(** [a or b]. *)
Definition py_or (a b : value) : value := if truthy a then a else b.

Definition type_name (v : value) : string :=
  match v with
  | VNone => "NoneType"
  | VBool _ => "bool"
  | VInt _ => "int"
  | VStr _ => "str"
  | VList _ => "list"
  | VDict _ => "dict"
  end.

Definition attribute_error {A} (v : value) (attr : string) : outcome A :=
  Raise ("'" +:+ type_name v +:+ "' object has no attribute '" +:+ attr +:+ "'").

(** [d.get(k)] on a dictionary: [None] when the key is absent. *)
Fixpoint dict_get (d : dict) (k : string) : value :=
  match d with
  | [] => VNone
  | (k', v) :: d' => if String.eqb k' k then v else dict_get d' k
  end.

Fixpoint dict_has (d : dict) (k : string) : bool :=
  match d with
  | [] => false
  | (k', _) :: d' => String.eqb k' k || dict_has d' k
  end.

(** [v.get(k)] on an arbitrary object: only a dict has the method. *)
Definition py_get (v : value) (k : string) : outcome value :=
  match v with
  | VDict d => Ok (dict_get d k)
  | _ => attribute_error v "get"
  end.

(** [v.get(k, default)]. *)
Definition py_get_default (v : value) (k : string) (default : value) : outcome value :=
  match v with
  | VDict d => Ok (if dict_has d k then dict_get d k else default)
  | _ => attribute_error v "get"
  end.

(** [v == s] for a string literal [s]. *)
Definition value_is_str (v : value) (s : string) : bool :=
  match v with
  | VStr s' => String.eqb s' s
  | _ => false
  end.

(** ** Strings *)

(** [s.startswith(p)]. *)
Definition startswith (s p : string) : bool := String.prefix p s.

(** [s.split(c, 1)] for a one-character separator: at most one cut, at the
    first occurrence. *)
Fixpoint split_once (c : ascii) (s : string) : string * option string :=
  match s with
  | EmptyString => (EmptyString, None)
  | String a s' =>
      if Ascii.eqb a c then (EmptyString, Some s')
      else let (h, t) := split_once c s' in (String a h, t)
  end.

Definition py_split1 (c : ascii) (s : string) : list string :=
  match split_once c s with
  | (h, None) => [h]
  | (h, Some t) => [h; t]
  end.

(** [l[i]] on a list of strings. *)
Definition str_index (l : list string) (i : nat) : outcome string :=
  match nth_error l i with
  | Some s => Ok s
  | None => Raise "list index out of range"
  end.

(** [s.rstrip("/")]. *)
Fixpoint rstrip_slash (s : string) : string :=
  match s with
  | EmptyString => EmptyString
  | String a s' =>
      match rstrip_slash s' with
      | EmptyString => if Ascii.eqb a "/" then EmptyString else String a EmptyString
      | r => String a r
      end
  end.

(** *** [int(s)] for a string, base 10

    Surrounding whitespace (tab to carriage return, and the blank) is
    dropped, one sign is allowed, and single underscores may separate digits.
    The interpreter's configurable cap on the number of digits is left out:
    it turns a very long literal into a [ValueError], which both callers
    catch. *)

Definition is_space (a : ascii) : bool :=
  let n := N_of_ascii a in
  ((9 <=? n) && (n <=? 13) || (n =? 32))%N.

Definition digit_of (a : ascii) : option Z :=
  let n := Z.of_N (N_of_ascii a) in
  if (48 <=? n) && (n <=? 57) then Some (n - 48) else None.

Fixpoint skip_ws (s : string) : string :=
  match s with
  | String a s' => if is_space a then skip_ws s' else s
  | EmptyString => EmptyString
  end.

Fixpoint all_ws (s : string) : bool :=
  match s with
  | String a s' => is_space a && all_ws s'
  | EmptyString => true
  end.

(** The rest of a literal, read just after a digit. *)
Fixpoint int_digits (acc : Z) (s : string) : option Z :=
  match s with
  | EmptyString => Some acc
  | String a s' =>
      match digit_of a with
      | Some d => int_digits (10 * acc + d) s'
      | None =>
          if Ascii.eqb a "_" then
            match s' with
            | String b s'' =>
                match digit_of b with
                | Some d => int_digits (10 * acc + d) s''
                | None => None
                end
            | EmptyString => None
            end
          else if is_space a then (if all_ws s' then Some acc else None)
          else None
      end
  end.

Definition int_unsigned (s : string) : option Z :=
  match s with
  | String a s' =>
      match digit_of a with
      | Some d => int_digits d s'
      | None => None
      end
  | EmptyString => None
  end.

Definition int_of_string (s : string) : option Z :=
  match skip_ws s with
  | String a r =>
      if Ascii.eqb a "-" then Z.opp <$> int_unsigned r
      else if Ascii.eqb a "+" then int_unsigned r
      else int_unsigned (String a r)
  | EmptyString => None
  end.

(** [int(v)]. *)
Definition py_int (v : value) : outcome Z :=
  match v with
  | VInt n => Ok n
  | VBool b => Ok (if b then 1 else 0)
  | VStr s =>
      match int_of_string s with
      | Some n => Ok n
      | None => Raise ("invalid literal for int() with base 10: '" +:+ s +:+ "'")
      end
  | _ => Raise ("int() argument must be a string, a bytes-like object or a real number, not '"
                +:+ type_name v +:+ "'")
  end.

(** A Python [int] object: [bool] is a subclass of [int], and a [bool] that
    passes [isinstance(x, int)] keeps its identity. *)
Inductive pyint : Type :=
| PInt (n : Z)
| PBool (b : bool).

Definition int_val (i : pyint) : Z :=
  match i with
  | PInt n => n
  | PBool b => if b then 1 else 0
  end.

Definition num_value (o : option pyint) : value :=
  match o with
  | None => VNone
  | Some (PInt n) => VInt n
  | Some (PBool b) => VBool b
  end.

(** ** [parse_channel_number] *)

(** The body of the [try] block. *)
Definition parse_channel_number_try (channel_id : value) : outcome pyint :=
  match channel_id with
  | VInt n => Ok (PInt n)
  | VBool b => Ok (PBool b)
  | VStr s =>
      if startswith s "channel-" then
        try! t <- str_index (py_split1 "-" s) 1;
        try! n <- py_int (VStr t);
        Ok (PInt n)
      else
        try! n <- py_int (VStr s);
        Ok (PInt n)
  | _ => attribute_error channel_id "startswith"
  end.

Definition parse_channel_number (channel_id : value) : option pyint :=
  if negb (truthy channel_id) then None
  else match parse_channel_number_try channel_id with
       | Ok n => Some n
       | _ => None
       end.

(** ** [normalize_state] *)

Definition normalize_state (state : value) : outcome (option string) :=
  if negb (truthy state) then Ok None
  else match state with
       | VStr s =>
           if startswith s "STATE_" then
             try! t <- str_index (py_split1 "_" s) 1;
             Ok (Some t)
           else Ok (Some s)
       | _ => attribute_error state "startswith"
       end.

(** [o or d] for an optional string. *)
Definition str_or (o : option string) (d : string) : string :=
  match o with
  | Some s => if String.eqb s "" then d else s
  | None => d
  end.

(** ** Dictionary keys

    The hashable values that occur as keys. [True == 1] and [False == 0] are
    the same key, as in a Python dict; lists and dicts are unhashable. *)

Inductive hkey : Type :=
| KNone
| KInt (n : Z)
| KStr (s : string).

#[global] Instance hkey_eq_dec : EqDecision hkey.
Proof. solve_decision. Defined.

#[global] Instance hkey_countable : Countable hkey.
Proof.
  refine (inj_countable'
    (fun k => match k with
              | KNone => inl tt
              | KInt n => inr (inl n)
              | KStr s => inr (inr s)
              end)
    (fun x => match x with
              | inl _ => KNone
              | inr (inl n) => KInt n
              | inr (inr s) => KStr s
              end) _).
  intros []; reflexivity.
Defined.

Definition hash_key (v : value) : outcome hkey :=
  match v with
  | VNone => Ok KNone
  | VBool b => Ok (KInt (if b then 1 else 0))
  | VInt n => Ok (KInt n)
  | VStr s => Ok (KStr s)
  | _ => Raise ("unhashable type: '" +:+ type_name v +:+ "'")
  end.

(** ** The aggregator's conflict resolution *)

(** The [candidate] dict literal of [aggregate_all]. *)
Definition candidate (src_num dst_num : option pyint) (state_norm : string) : dict :=
  [("source channel", num_value src_num);
   ("destiation channel", num_value dst_num);
   ("state", VStr state_norm)].

(** The error stub stored under ["__error__"]. *)
Definition error_stub (msg : string) : dict := [("message", VStr msg)].

(** [existing_num] of [should_replace]: the [int()] of the stored source
    channel, [None] when it is absent or the conversion raises. *)
Definition existing_num_of (existing : dict) : option Z :=
  match dict_get existing "source channel" with
  | VNone => None
  | v => match py_int v with
         | Ok n => Some n
         | _ => None
         end
  end.

(** [existing_state] of [should_replace]. *)
Definition existing_state_of (existing : dict) : value :=
  py_or (dict_get existing "state") (VStr "").

Definition should_replace (existing : option dict) (candidate_state : string)
    (candidate_src_num : option pyint) : bool :=
  match existing with
  | None => true
  | Some [] => true
  | Some existing =>
      let existing_state := existing_state_of existing in
      if negb (value_is_str existing_state "OPEN") && String.eqb candidate_state "OPEN"
      then true
      else if value_is_str existing_state "OPEN" && negb (String.eqb candidate_state "OPEN")
      then false
      else
        match existing_num_of existing with
        | None => true
        | Some existing_num =>
            match candidate_src_num with
            | None => false
            | Some c => int_val c <? existing_num
            end
        end
  end.

(** What one row contributes: the counterparty key and the normalized
    fields of the [candidate] dict. *)
Record cand : Type := Cand {
  cp_key : hkey;
  src_num : option pyint;
  dst_num : option pyint;
  state_norm : string
}.

(** The first half of the loop body of [for r in rows]: the skips and the
    normalizations; [None] stands for [continue]. *)
Definition row_candidate (chain_id_to_symbol : gmap hkey string) (r : dict)
    : outcome (option cand) :=
  if truthy (dict_get r "error") then Ok None
  else if negb (value_is_str (dict_get r "port_id") "transfer") then Ok None
  else
    let cp_chain_id := dict_get r "counterparty_chain_id" in
    try! k <- hash_key cp_chain_id;
    try! cp_key <- match chain_id_to_symbol !! k with
                   | Some symbol => Ok (KStr symbol)
                   | None => hash_key (py_or cp_chain_id (VStr "UNKNOWN"))
                   end;
    let src_num := parse_channel_number (dict_get r "channel_id") in
    let dst_num := parse_channel_number (dict_get r "counterparty_channel_id") in
    try! st <- normalize_state (dict_get r "state");
    let state_norm := str_or st "UNKNOWN" in
    Ok (Some (Cand cp_key src_num dst_num state_norm)).

Definition leaf_of (c : cand) : dict :=
  candidate (src_num c) (dst_num c) (state_norm c).

(** The second half: look up [existing] and store the candidate when
    [should_replace] says so. *)
Definition store (local_map : gmap hkey dict) (c : cand) : gmap hkey dict :=
  let existing := local_map !! cp_key c in
  if should_replace existing (state_norm c) (src_num c)
  then <[cp_key c := leaf_of c]> local_map
  else local_map.

(** One iteration of the loop [for r in rows] of [aggregate_all]. *)
Definition aggregate_row (chain_id_to_symbol : gmap hkey string)
    (local_map : gmap hkey dict) (r : dict) : outcome (gmap hkey dict) :=
  try! c <- row_candidate chain_id_to_symbol r;
  match c with
  | None => Ok local_map
  | Some c => Ok (store local_map c)
  end.

Fixpoint aggregate_rows (chain_id_to_symbol : gmap hkey string)
    (local_map : gmap hkey dict) (rows : list dict) : outcome (gmap hkey dict) :=
  match rows with
  | [] => Ok local_map
  | r :: rows' =>
      try! local_map' <- aggregate_row chain_id_to_symbol local_map r;
      aggregate_rows chain_id_to_symbol local_map' rows'
  end.

(** ** The network *)

(** The requests the script issues. Each stands for one URL built by
    [urljoin]:
    - [ListChannels base limit key]:
      [base/ibc/core/channel/v1/channels?pagination.limit=..&pagination.key=..];
    - [GetChannel base channel_id port_id]:
      [base/ibc/core/channel/v1/channels/{channel_id}/ports/{port_id}];
    - [GetConnection base connection_id]:
      [base/ibc/core/connection/v1/connections/{connection_id}];
    - [GetClientState base client_id]:
      [base/ibc/core/client/v1/client_states/{client_id}];
    - [NodeInfo base]: [base/cosmos/base/tendermint/v1beta1/node_info];
    - [LatestBlock base]: [base/cosmos/base/tendermint/v1beta1/blocks/latest]. *)
Inductive request : Type :=
| ListChannels (base : string) (limit : Z) (key : option value)
| GetChannel (base : string) (channel_id port_id : value)
| GetConnection (base : string) (connection_id : value)
| GetClientState (base : string) (client_id : value)
| NodeInfo (base : string)
| LatestBlock (base : string).

(** What [http_get_json] does with a request: the decoded document, or an
    exception. *)
Inductive reply : Type :=
| Json (data : value)
| Failure (msg : string).

(** [list.extend(v)]: the items [v] yields when iterated. *)
Fixpoint chars_of (s : string) : list value :=
  match s with
  | EmptyString => []
  | String a s' => VStr (String a EmptyString) :: chars_of s'
  end.

Definition py_iter (v : value) : outcome (list value) :=
  match v with
  | VList l => Ok l
  | VStr s => Ok (chars_of s)
  | VDict d => Ok (map (fun kv => VStr (fst kv)) d)
  | _ => Raise ("'" +:+ type_name v +:+ "' object is not iterable")
  end.

(** [v[0]]. *)
Definition py_index0 (v : value) : outcome value :=
  match v with
  | VList (x :: _) => Ok x
  | VList [] => Raise "list index out of range"
  | VStr (String a _) => Ok (VStr (String a EmptyString))
  | VStr EmptyString => Raise "string index out of range"
  | VDict _ => Raise "0"
  | _ => Raise ("'" +:+ type_name v +:+ "' object is not subscriptable")
  end.

(** [time.sleep(delay_ms / 1000.0)]: only its exception is observable. *)
Definition py_sleep (delay_ms : Z) : outcome unit :=
  if delay_ms <? 0 then Raise "sleep length must be non-negative" else Ok tt.

(** ** [extract_chain_id_from_client_state] *)

Definition extract_chain_id_from_client_state (client_state_obj : value) : outcome value :=
  try! cs0 <- py_get client_state_obj "client_state";
  let cs := py_or cs0 (VDict []) in
  try! chain_id <- py_get cs "chain_id";
  if truthy chain_id then Ok chain_id
  else
    try! value <- py_get cs "value";
    match value with
    | VDict d => Ok (dict_get d "chain_id")
    | _ => Ok VNone
    end.

(** The stub appended by the [except] branch of [map_channels]. *)
Definition error_row (ch : value) (e : string) : outcome dict :=
  try! channel_id <- py_get ch "channel_id";
  try! port_id <- py_get ch "port_id";
  Ok [("channel_id", channel_id); ("port_id", port_id); ("error", VStr e)].

(** The two filters of [map_channels]: an empty or absent filter lets
    everything through. *)
Definition port_skipped (port_filter : string) (port_id : value) : bool :=
  negb (String.eqb port_filter "") && negb (value_is_str port_id port_filter).

Definition state_skipped (state_filter : option string) (state : value) : bool :=
  match state_filter with
  | Some sf => negb (String.eqb sf "") && negb (value_is_str state sf)
  | None => false
  end.

(** A row carries the fields of the list entry [d] unchanged. *)
Definition raw_row (d r : dict) : Prop :=
  dict_get r "channel_id" = dict_get d "channel_id"
  /\ dict_get r "port_id" = dict_get d "port_id"
  /\ dict_get r "state" = dict_get d "state".

(** The [pagination.key] parameter: sent only when the cursor is set. *)
Definition cursor_param (next_key_b64 : value) : option value :=
  if truthy next_key_b64 then Some next_key_b64 else None.

(** What [paginate_channels] reads of one response: the items it appends
    and the cursor it continues with. *)
Definition page_items (data : value) : outcome (list value) :=
  try! cs <- py_get_default data "channels" (VList []);
  py_iter cs.

Definition page_cursor (data : value) : outcome value :=
  try! p <- py_get data "pagination";
  py_get (py_or p (VDict [])) "next_key".

(** The configured endpoints, in the order of the dict literal. *)
Definition TENDERMINT_API_URLS : list (string * string) :=
  [("IRISTEST", "https://iristest-api.bravo.komodo.earth/");
   ("NUCLEUSTEST", "https://nucleus-api.alpha.komodo.earth/");
   ("ATOM", "https://cosmos-api.alpha.komodo.earth/");
   ("OSMO", "https://osmosis-api.alpha.komodo.earth/");
   ("IRIS", "https://iris-rest.publicnode.com/")].

(** ** The pipeline over a network *)

Section Pipeline.

Context {W : Type}.
Variable http_get_json : request -> W -> reply * W.

(** Computations that talk to the network and may raise. *)
Definition M (A : Type) : Type := W -> outcome A * W.

Definition mret {A} (a : A) : M A := fun w => (Ok a, w).

Definition mbind {A B} (m : M A) (f : A -> M B) : M B :=
  fun w =>
    match m w with
    | (Ok a, w') => f a w'
    | (Raise e, w') => (Raise e, w')
    | (Diverge, w') => (Diverge, w')
    end.

Definition lift {A} (o : outcome A) : M A := fun w => (o, w).

(** [try: m  except Exception as e: h e]. *)
Definition catch {A} (m : M A) (h : string -> M A) : M A :=
  fun w =>
    match m w with
    | (Raise e, w') => h e w'
    | r => r
    end.

Definition call (req : request) : M value :=
  fun w =>
    match http_get_json req w with
    | (Json data, w') => (Ok data, w')
    | (Failure e, w') => (Raise e, w')
    end.

Notation "'do!' x <- m ; k" := (mbind m (fun x => k))
  (at level 10, x name, m at level 100, k at level 200,
   format "'[v' 'do!'  x  <-  m ; '/' k ']'").

(** *** [paginate_channels] *)

(** The [while True] loop; [fuel] bounds the number of requests. *)
Fixpoint paginate_loop (fuel : nat) (base : string) (limit : Z)
    (channels : list value) (next_key_b64 : value) : M (list value) :=
  match fuel with
  | O => lift Diverge
  | S fuel' =>
      do! data <- call (ListChannels base limit (cursor_param next_key_b64));
      do! cs <- lift (py_get_default data "channels" (VList []));
      do! items <- lift (py_iter cs);
      let channels := channels ++ items in
      do! p <- lift (py_get data "pagination");
      let pagination := py_or p (VDict []) in
      do! next_key_b64 <- lift (py_get pagination "next_key");
      if negb (truthy next_key_b64) then mret channels
      else paginate_loop fuel' base limit channels next_key_b64
  end.

Definition paginate_channels (fuel : nat) (base : string) (limit : Z) : M (list value) :=
  paginate_loop fuel base limit [] VNone.

(** A run of list requests starting with cursor [key] in world [w]: every
    response but the last carries a cursor, the last one has none, and
    [pages] are the items of the responses in order. *)
Inductive fetches (base : string) (limit : Z)
    : value -> W -> list (list value) -> W -> Prop :=
| fetches_last key w data items next_key w' :
    http_get_json (ListChannels base limit (cursor_param key)) w = (Json data, w') ->
    page_items data = Ok items ->
    page_cursor data = Ok next_key ->
    truthy next_key = false ->
    fetches base limit key w [items] w'
| fetches_more key w data items next_key w' pages w'' :
    http_get_json (ListChannels base limit (cursor_param key)) w = (Json data, w') ->
    page_items data = Ok items ->
    page_cursor data = Ok next_key ->
    truthy next_key = true ->
    fetches base limit next_key w' pages w'' ->
    fetches base limit key w (items :: pages) w''.

Definition get_channel (base : string) (channel_id port_id : value) : M value :=
  call (GetChannel base channel_id port_id).

Definition get_connection (base : string) (connection_id : value) : M value :=
  call (GetConnection base connection_id).

Definition get_client_state (base : string) (client_id : value) : M value :=
  call (GetClientState base client_id).

(** *** [get_local_chain_id] *)

Definition get_local_chain_id (base : string) : M value :=
  do! chain_id <- catch
      (do! data <- call (NodeInfo base);
       do! ni0 <- lift (py_get data "default_node_info");
       let ni := py_or ni0 (VDict []) in
       lift (py_get ni "network"))
      (fun _ => mret VNone);
  if truthy chain_id then mret chain_id
  else
    do! chain_id <- catch
        (do! data <- call (LatestBlock base);
         do! b0 <- lift (py_get data "block");
         do! h0 <- lift (py_get (py_or b0 (VDict [])) "header");
         let header := py_or h0 (VDict []) in
         lift (py_get header "chain_id"))
        (fun _ => mret VNone);
    if truthy chain_id then mret chain_id else mret VNone.

(** *** [map_channels] *)

(** The body of the [try] block for one channel, up to the construction
    of [info_dict]; [None] stands for [continue]. *)
Definition resolve_channel (base port_filter : string) (state_filter : option string)
    (ch : value) : M (option dict) :=
  do! port_id <- lift (py_get ch "port_id");
  do! state <- lift (py_get ch "state");
  if port_skipped port_filter port_id then mret None
  else if state_skipped state_filter state then mret None
  else
    do! channel_id <- lift (py_get ch "channel_id");
    do! ch_full <- get_channel base channel_id port_id;
    do! c0 <- lift (py_get ch_full "channel");
    let channel := py_or c0 (VDict []) in
    do! cp0 <- lift (py_get channel "counterparty");
    let cp := py_or cp0 (VDict []) in
    do! cp_channel_id <- lift (py_get cp "channel_id");
    do! cp_port_id <- lift (py_get cp "port_id");
    do! h0 <- lift (py_get channel "connection_hops");
    let hops := py_or h0 (VList []) in
    if negb (truthy hops) then mret None
    else
      do! connection_id <- lift (py_index0 hops);
      do! conn <- get_connection base connection_id;
      do! cn0 <- lift (py_get conn "connection");
      let connection := py_or cn0 (VDict []) in
      do! client_id <- lift (py_get connection "client_id");
      do! client_state_obj <- get_client_state base client_id;
      do! chain_id <- lift (extract_chain_id_from_client_state client_state_obj);
      mret (Some [("channel_id", channel_id);
                  ("port_id", port_id);
                  ("counterparty_channel_id", cp_channel_id);
                  ("counterparty_port_id", cp_port_id);
                  ("connection_id", connection_id);
                  ("client_id", client_id);
                  ("counterparty_chain_id", chain_id);
                  ("state", state)]).

(** The [except] branch: append the stub; [ch.get] may raise again. *)
Definition record_error (out : list dict) (ch : value) (e : string) : M (list dict) :=
  lift (try! stub <- error_row ch e; Ok (out ++ [stub])).

(** One iteration of [for i, ch in enumerate(all_channels)]. *)
Definition map_channels_step (base port_filter : string) (state_filter : option string)
    (delay_ms : Z) (out : list dict) (ch : value) : M (list dict) :=
  fun w =>
    match resolve_channel base port_filter state_filter ch w with
    | (Ok None, w') => (Ok out, w')
    | (Ok (Some info_dict), w') =>
        let out := out ++ [info_dict] in
        if delay_ms =? 0 then (Ok out, w')
        else match py_sleep delay_ms with
             | Ok _ => (Ok out, w')
             | Raise e => record_error out ch e w'
             | Diverge => (Diverge, w')
             end
    | (Raise e, w') => record_error out ch e w'
    | (Diverge, w') => (Diverge, w')
    end.

Fixpoint map_channels_loop (base port_filter : string) (state_filter : option string)
    (delay_ms : Z) (all_channels : list value) (out : list dict) : M (list dict) :=
  match all_channels with
  | [] => mret out
  | ch :: rest =>
      do! out' <- map_channels_step base port_filter state_filter delay_ms out ch;
      map_channels_loop base port_filter state_filter delay_ms rest out'
  end.

Definition map_channels (fuel : nat) (base port_filter : string)
    (state_filter : option string) (limit delay_ms : Z) : M (list dict) :=
  do! all_channels <- paginate_channels fuel base limit;
  map_channels_loop base port_filter state_filter delay_ms all_channels [].

(** *** [build_chain_id_symbol_map] *)

Fixpoint build_chain_id_symbol_map_loop (urls : list (string * string))
    (mapping : gmap hkey string) : M (gmap hkey string) :=
  match urls with
  | [] => mret mapping
  | (symbol, base) :: rest =>
      let base := rstrip_slash base in
      do! chain_id <- get_local_chain_id base;
      if truthy chain_id then
        do! k <- lift (hash_key chain_id);
        build_chain_id_symbol_map_loop rest (<[k := symbol]> mapping)
      else build_chain_id_symbol_map_loop rest mapping
  end.

Definition build_chain_id_symbol_map (urls : list (string * string)) : M (gmap hkey string) :=
  build_chain_id_symbol_map_loop urls ∅.

(** *** [aggregate_all] *)

(** One iteration of [for local_symbol, base in TENDERMINT_API_URLS.items()].
    [local_map] aliases [result[local_symbol]], so its updates are updates
    of [result]. *)
Definition aggregate_endpoint (fuel : nat) (chain_id_to_symbol : gmap hkey string)
    (result : gmap string (gmap hkey dict)) (endpoint : string * string)
    : M (gmap string (gmap hkey dict)) :=
  let (local_symbol, base) := endpoint in
  let base := rstrip_slash base in
  fun w =>
    match map_channels fuel base "transfer" None 200 0 w with
    | (Ok rows, w') =>
        let local_map := default ∅ (result !! local_symbol) in
        (try! local_map' <- aggregate_rows chain_id_to_symbol local_map rows;
         Ok (<[local_symbol := local_map']> result), w')
    | (Raise e, w') =>
        let local_map := default ∅ (result !! local_symbol) in
        (Ok (<[local_symbol := <[KStr "__error__" := error_stub e]> local_map]> result), w')
    | (Diverge, w') => (Diverge, w')
    end.

Fixpoint aggregate_loop (fuel : nat) (chain_id_to_symbol : gmap hkey string)
    (urls : list (string * string)) (result : gmap string (gmap hkey dict))
    : M (gmap string (gmap hkey dict)) :=
  match urls with
  | [] => mret result
  | endpoint :: rest =>
      do! result' <- aggregate_endpoint fuel chain_id_to_symbol result endpoint;
      aggregate_loop fuel chain_id_to_symbol rest result'
  end.

(** [aggregate_all], over the registry [urls] (the module's
    [TENDERMINT_API_URLS]). *)
Definition aggregate_all (fuel : nat) (urls : list (string * string))
    : M (gmap string (gmap hkey dict)) :=
  do! chain_id_to_symbol <- build_chain_id_symbol_map urls;
  aggregate_loop fuel chain_id_to_symbol urls ∅.

End Pipeline.

(** ** Shape of the result *)




(** ** A mock network

    A stateless server answering by request, and a scripted one that hands
    out a fixed sequence of responses whatever is asked. *)

Module Demo.

Definition entry_fields (channel_id state : string) : dict :=
  [("state", VStr state); ("port_id", VStr "transfer");
   ("channel_id", VStr channel_id)].

Definition channel_entry (channel_id state : string) : value :=
  VDict (entry_fields channel_id state).

Definition page (channels : list value) (next_key : value) : value :=
  VDict [("channels", VList channels);
         ("pagination", VDict [("next_key", next_key); ("total", VStr "0")])].

Definition counterparty_fields (cp_channel_id : string) : dict :=
  [("port_id", VStr "transfer"); ("channel_id", VStr cp_channel_id)].

Definition channel_fields (state cp_channel_id : string) (hops : list value) : dict :=
  [("state", VStr state);
   ("ordering", VStr "ORDER_UNORDERED");
   ("counterparty", VDict (counterparty_fields cp_channel_id));
   ("connection_hops", VList hops);
   ("version", VStr "ics20-1")].

Definition detail_fields (state cp_channel_id : string) (hops : list value) : dict :=
  [("channel", VDict (channel_fields state cp_channel_id hops))].

Definition detail (state cp_channel_id : string) (hops : list value) : value :=
  VDict (detail_fields state cp_channel_id hops).

Definition connection (client_id : string) : value :=
  VDict [("connection", VDict [("client_id", VStr client_id)])].

Definition client_state (chain_id : string) : value :=
  VDict [("client_state",
          VDict [("@type", VStr "/ibc.lightclients.tendermint.v1.ClientState");
                 ("chain_id", VStr chain_id)])].

Definition not_found : reply := Failure "HTTP Error 404: Not Found".

(** Endpoints:
    - [https://a.example]: one OPEN channel channel-12 to channel-99 on
      osmosis-1;
    - [https://b.example]: one channel channel-7 listed as STATE_OPEN, to
      channel-1 on foo-7;
    - [https://h.example]: one channel channel-3 in STATE_INIT without
      connection hops;
    - [https://e.example]: one channel channel-5 whose detail request
      raises an exception with an empty message;
    - [https://osmo.example]: identifies itself as osmosis-1, no channels;
    - anything else is unreachable. *)
Definition server (req : request) : reply :=
  match req with
  | NodeInfo base =>
      if String.eqb base "https://osmo.example"
      then Json (VDict [("default_node_info", VDict [("network", VStr "osmosis-1")])])
      else not_found
  | LatestBlock _ => not_found
  | ListChannels base limit None =>
      if negb (limit =? 200) then not_found
      else if String.eqb base "https://a.example"
      then Json (page [channel_entry "channel-12" "OPEN"] VNone)
      else if String.eqb base "https://b.example"
      then Json (page [channel_entry "channel-7" "STATE_OPEN"] VNone)
      else if String.eqb base "https://h.example"
      then Json (page [channel_entry "channel-3" "STATE_INIT"] VNone)
      else if String.eqb base "https://e.example"
      then Json (page [channel_entry "channel-5" "STATE_OPEN"] VNone)
      else if String.eqb base "https://osmo.example"
      then Json (page [] VNone)
      else Failure "<urlopen error [Errno 111] Connection refused>"
  | ListChannels _ _ (Some _) => not_found
  | GetChannel base (VStr channel_id) (VStr "transfer") =>
      if String.eqb base "https://a.example" && String.eqb channel_id "channel-12"
      then Json (detail "STATE_OPEN" "channel-99" [VStr "connection-0"])
      else if String.eqb base "https://b.example" && String.eqb channel_id "channel-7"
      then Json (detail "STATE_OPEN" "channel-1" [VStr "connection-4"])
      else if String.eqb base "https://h.example" && String.eqb channel_id "channel-3"
      then Json (detail "STATE_INIT" "" [])
      else if String.eqb base "https://e.example" && String.eqb channel_id "channel-5"
      then Failure ""
      else not_found
  | GetChannel _ _ _ => not_found
  | GetConnection base (VStr connection_id) =>
      if String.eqb base "https://a.example" && String.eqb connection_id "connection-0"
      then Json (connection "07-tendermint-0")
      else if String.eqb base "https://b.example" && String.eqb connection_id "connection-4"
      then Json (connection "07-tendermint-9")
      else not_found
  | GetConnection _ _ => not_found
  | GetClientState base (VStr client_id) =>
      if String.eqb base "https://a.example" && String.eqb client_id "07-tendermint-0"
      then Json (client_state "osmosis-1")
      else if String.eqb base "https://b.example" && String.eqb client_id "07-tendermint-9"
      then Json (client_state "foo-7")
      else not_found
  | GetClientState _ _ => not_found
  end.

Definition http (req : request) (w : unit) : reply * unit := (server req, w).

(** A scripted network: the responses are handed out in order. *)
Definition scripted (req : request) (w : list reply) : reply * list reply :=
  match w with
  | r :: w' => (r, w')
  | [] => (Failure "no response left", [])
  end.

(** A response that is never asked for when the run stops in time. *)
Definition left_over : reply :=
  Json (page [channel_entry "channel-9" "STATE_OPEN"] VNone).

Definition three_pages : list reply :=
  [Json (page [channel_entry "channel-0" "STATE_OPEN";
               channel_entry "channel-1" "STATE_OPEN"] (VStr "AAE="));
   Json (page [channel_entry "channel-2" "STATE_INIT"] (VStr "AAE="));
   Json (page [] (VStr ""));
   left_over].

Definition three_page_items : list (list value) :=
  [[channel_entry "channel-0" "STATE_OPEN"; channel_entry "channel-1" "STATE_OPEN"];
   [channel_entry "channel-2" "STATE_INIT"];
   []].

(** The row [map_channels] returns for [https://b.example]. *)
Definition row_b : dict :=
  [("channel_id", VStr "channel-7");
   ("port_id", VStr "transfer");
   ("counterparty_channel_id", VStr "channel-1");
   ("counterparty_port_id", VStr "transfer");
   ("connection_id", VStr "connection-4");
   ("client_id", VStr "07-tendermint-9");
   ("counterparty_chain_id", VStr "foo-7");
   ("state", VStr "STATE_OPEN")].

Definition urls : list (string * string) :=
  [("A", "https://a.example/"); ("OSMO", "https://osmo.example/")].

(** A resolved row as [map_channels] builds it. *)
Definition row (channel_id cp_channel_id chain_id state : string) : dict :=
  [("channel_id", VStr channel_id);
   ("port_id", VStr "transfer");
   ("counterparty_channel_id", VStr cp_channel_id);
   ("counterparty_port_id", VStr "transfer");
   ("connection_id", VStr "connection-0");
   ("client_id", VStr "07-tendermint-0");
   ("counterparty_chain_id", VStr chain_id);
   ("state", VStr state)].

End Demo.


(** ** Ranking of candidates *)

Definition is_open (c : cand) : bool := String.eqb (state_norm c) "OPEN".

Definition num_of (c : cand) : option Z := int_val <$> src_num c.

(** Two candidates tie when they are for the same pair and agree on
    OPEN-ness and on the source-channel number (both unparseable counts as
    agreeing). *)
Definition tieb (c1 c2 : cand) : bool :=
  bool_decide (cp_key c1 = cp_key c2)
  && Bool.eqb (is_open c1) (is_open c2)
  && bool_decide (num_of c1 = num_of c2).

Fixpoint no_ties (cs : list cand) : bool :=
  match cs with
  | [] => true
  | c :: cs' => forallb (fun c' => negb (tieb c c')) cs' && no_ties cs'
  end.

(** The candidates a list of rows contributes, in order. *)
Fixpoint candidates (chain_id_to_symbol : gmap hkey string) (rows : list dict)
    : outcome (list cand) :=
  match rows with
  | [] => Ok []
  | r :: rows' =>
      try! c <- row_candidate chain_id_to_symbol r;
      try! cs <- candidates chain_id_to_symbol rows';
      Ok (match c with Some c => c :: cs | None => cs end)
  end.

Definition store_all (local_map : gmap hkey dict) (cs : list cand) : gmap hkey dict :=
  fold_left store cs local_map.

(** What [should_replace] reads of an entry: its OPEN-ness and its source
    number. *)
Definition rank (c : cand) : bool * option Z := (is_open c, num_of c).

(** The decision of [should_replace] on ranks. *)
Definition beats (existing : option (bool * option Z)) (r : bool * option Z) : bool :=
  match existing with
  | None => true
  | Some (eo, en) =>
      if negb eo && fst r then true
      else if eo && negb (fst r) then false
      else match en with
           | None => true
           | Some e => match snd r with
                       | None => false
                       | Some n => n <? e
                       end
           end
  end.

Definition abstract_entry (existing : option dict) : option (bool * option Z) :=
  match existing with
  | None => None
  | Some [] => None
  | Some e => Some (value_is_str (existing_state_of e) "OPEN", existing_num_of e)
  end.

(** ** The order behind the conflict resolution *)

(** [rank_le a b]: an entry of rank [a] is at least as good as one of rank
    [b]. OPEN comes before every other state, then the smaller source number,
    an unparseable number last. *)
Definition rank_le (a b : bool * option Z) : bool :=
  match fst a, fst b with
  | true, false => true
  | false, true => false
  | _, _ =>
      match snd a, snd b with
      | _, None => true
      | None, Some _ => false
      | Some x, Some y => x <=? y
      end
  end.

(** [leaf] is the leaf of a candidate of [seen] for the key [k] that is at
    least as good as every candidate of [seen] for that key. *)
Definition best_in (seen : list cand) (k : hkey) (leaf : dict) : Prop :=
  exists c : cand,
    In c seen /\ cp_key c = k /\ leaf = leaf_of c
    /\ forall c', In c' seen -> cp_key c' = k -> rank_le (rank c) (rank c') = true.

(** The two skips at the head of the loop [for r in rows]. *)
Definition row_skipped (r : dict) : bool :=
  truthy (dict_get r "error")
  || negb (value_is_str (dict_get r "port_id") "transfer").

(** Values a dict accepts as a key. *)
Definition hashable (v : value) : bool :=
  match v with
  | VList _ | VDict _ => false
  | _ => true
  end.

(** Values [normalize_state] accepts: a string, or anything falsy. *)
Definition state_accepted (v : value) : bool :=
  match v with
  | VStr _ => true
  | _ => negb (truthy v)
  end.

(** ** Decimal literals *)





(** ** Objects and failing runs *)

(** A JSON object. *)
Definition is_object (v : value) : bool :=
  match v with
  | VDict _ => true
  | _ => false
  end.

(** The keys no truthy value hashes to. *)
Definition falsy_key (k : hkey) : bool :=
  match k with
  | KNone => true
  | KInt n => n =? 0
  | KStr s => String.eqb s ""
  end.

Section PipelineRuns.

Context {W : Type}.
Variable http_get_json : request -> W -> reply * W.

(** A run of list requests that breaks off: [n] responses carrying a cursor,
    then a request that raises [e]. *)
Inductive fetch_fails (base : string) (limit : Z)
    : value -> W -> nat -> string -> W -> Prop :=
| fetch_fails_now key w e w' :
    http_get_json (ListChannels base limit (cursor_param key)) w = (Failure e, w') ->
    fetch_fails base limit key w 0 e w'
| fetch_fails_later key w data items next_key w' n e w'' :
    http_get_json (ListChannels base limit (cursor_param key)) w = (Json data, w') ->
    page_items data = Ok items ->
    page_cursor data = Ok next_key ->
    truthy next_key = true ->
    fetch_fails base limit next_key w' n e w'' ->
    fetch_fails base limit key w (S n) e w''.

End PipelineRuns.

(** ** More mock endpoints

    - [https://l.example]: node_info is not served, the latest block names
      the chain legacy-1;
    - [https://n.example]: one channel channel-4 whose state is listed as
      the number 3, to channel-2 on foo-7;
    - [https://f.example]: a first page with a cursor, then a failure;
    - [https://m.example]: a list holding the object channel-1, whose detail
      is not served, and the bare string "channel-0". *)

Module Cases.

Definition numbered_entry : dict :=
  [("state", VInt 3); ("port_id", VStr "transfer"); ("channel_id", VStr "channel-4")].

Definition latest_block : value :=
  VDict [("block",
          VDict [("header", VDict [("chain_id", VStr "legacy-1"); ("height", VStr "5")])])].

Definition server (req : request) : reply :=
  match req with
  | NodeInfo _ => Failure "HTTP Error 501: Not Implemented"
  | LatestBlock base =>
      if String.eqb base "https://l.example" then Json latest_block
      else Demo.not_found
  | ListChannels base limit None =>
      if String.eqb base "https://n.example"
      then Json (Demo.page [VDict numbered_entry] VNone)
      else if String.eqb base "https://f.example"
      then Json (Demo.page [Demo.channel_entry "channel-0" "STATE_OPEN"] (VStr "AAE="))
      else if String.eqb base "https://m.example"
      then Json (Demo.page [Demo.channel_entry "channel-1" "STATE_OPEN"; VStr "channel-0"]
                   VNone)
      else Demo.not_found
  | ListChannels base limit (Some _) =>
      Failure "HTTP Error 500: Internal Server Error"
  | GetChannel base (VStr channel_id) (VStr "transfer") =>
      if String.eqb base "https://n.example" && String.eqb channel_id "channel-4"
      then Json (Demo.detail "STATE_OPEN" "channel-2" [VStr "connection-1"])
      else Demo.not_found
  | GetChannel _ _ _ => Demo.not_found
  | GetConnection base (VStr connection_id) =>
      if String.eqb base "https://n.example" && String.eqb connection_id "connection-1"
      then Json (Demo.connection "07-tendermint-3")
      else Demo.not_found
  | GetConnection _ _ => Demo.not_found
  | GetClientState base (VStr client_id) =>
      if String.eqb base "https://n.example" && String.eqb client_id "07-tendermint-3"
      then Json (Demo.client_state "foo-7")
      else Demo.not_found
  | GetClientState _ _ => Demo.not_found
  end.

Definition http (req : request) (w : unit) : reply * unit := (server req, w).

(** The row [map_channels] returns for [https://n.example]. *)
Definition row_n : dict :=
  [("channel_id", VStr "channel-4");
   ("port_id", VStr "transfer");
   ("counterparty_channel_id", VStr "channel-2");
   ("counterparty_port_id", VStr "transfer");
   ("connection_id", VStr "connection-1");
   ("client_id", VStr "07-tendermint-3");
   ("counterparty_chain_id", VStr "foo-7");
   ("state", VInt 3)].

(** The stub of channel-1 of [https://m.example]. *)
Definition stub_m : dict :=
  [("channel_id", VStr "channel-1");
   ("port_id", VStr "transfer");
   ("error", VStr "HTTP Error 404: Not Found")].

End Cases.

(** ** [urljoin]

    The query is the list of items of the dict; an empty list stands for
    both [None] and the empty dict. [quote_plus] and [urlencode] are those
    of [urllib.parse]; the strings being ASCII, a character is one byte. *)

Fixpoint lstrip_slash (s : string) : string :=
  match s with
  | String a s' => if Ascii.eqb a "/" then lstrip_slash s' else s
  | EmptyString => EmptyString
  end.

(** Letters, digits and [_.-~] are never quoted. *)
Definition always_safe (a : ascii) : bool :=
  let n := N_of_ascii a in
  ((65 <=? n) && (n <=? 90) || (97 <=? n) && (n <=? 122) || (48 <=? n) && (n <=? 57)
   || (n =? 95) || (n =? 46) || (n =? 45) || (n =? 126))%N.

Definition hex_digit (n : N) : ascii :=
  ascii_of_N (if (n <? 10)%N then 48 + n else 55 + n)%N.

Definition quote_char (a : ascii) : string :=
  if always_safe a then String a EmptyString
  else if Ascii.eqb a " " then "+"
  else String "%" (String (hex_digit (N_of_ascii a / 16))
                     (String (hex_digit (N_of_ascii a mod 16)) EmptyString)).

Fixpoint quote_plus (s : string) : string :=
  match s with
  | EmptyString => EmptyString
  | String a s' => quote_char a +:+ quote_plus s'
  end.

(** [sep.join(l)]. *)
Fixpoint join (sep : string) (l : list string) : string :=
  match l with
  | [] => EmptyString
  | [x] => x
  | x :: l' => x +:+ sep +:+ join sep l'
  end.

Definition urlencode (query : list (string * string)) : string :=
  join "&" (map (fun kv => quote_plus (fst kv) +:+ "=" +:+ quote_plus (snd kv)) query).

Definition urljoin (base path : string) (query : list (string * string)) : string :=
  let url := rstrip_slash base +:+ "/" +:+ lstrip_slash path in
  match query with
  | [] => url
  | _ => url +:+ "?" +:+ urlencode query
  end.

(** Reading a quoted string back, as the receiving side does. *)
Definition hex_value (a : ascii) : option N :=
  let n := N_of_ascii a in
  if ((48 <=? n) && (n <=? 57))%N then Some (n - 48)%N
  else if ((65 <=? n) && (n <=? 70))%N then Some (n - 55)%N
  else None.

Fixpoint unquote_plus (s : string) : option string :=
  match s with
  | EmptyString => Some EmptyString
  | String a s' =>
      if Ascii.eqb a "%" then
        match s' with
        | String h (String l s'') =>
            match hex_value h, hex_value l with
            | Some x, Some y => String (ascii_of_N (16 * x + y)) <$> unquote_plus s''
            | _, _ => None
            end
        | _ => None
        end
      else if Ascii.eqb a "+" then String " " <$> unquote_plus s'
      else String a <$> unquote_plus s'
  end.

(** The characters [quote_plus] writes. *)
Definition url_char (a : ascii) : bool :=
  always_safe a || Ascii.eqb a "%" || Ascii.eqb a "+".

Fixpoint string_forallb (p : ascii -> bool) (s : string) : bool :=
  match s with
  | EmptyString => true
  | String a s' => p a && string_forallb p s'
  end.

(** ** [format_table] *)

(** [s * n]. *)
Fixpoint string_mul (s : string) (n : nat) : string :=
  match n with
  | O => EmptyString
  | S n' => s +:+ string_mul s n'
  end.

(** [s.ljust(width)]. *)
Definition ljust (s : string) (width : nat) : string :=
  s +:+ string_mul " " (width - String.length s).

Definition newline : string := String (ascii_of_nat 10) EmptyString.

Definition headers : list string :=
  ["local_channel"; "local_port"; "counterparty_channel"; "counterparty_port";
   "counterparty_chain_id"; "connection_id"; "client_id"].

(** [r.get(k, "")]. *)
Definition field (r : dict) (k : string) : value :=
  if dict_has r k then dict_get r k else VStr "".

(** The list appended to [table] for the row [r]. *)
Definition table_row (r : dict) : list value :=
  [field r "channel_id"; field r "port_id"; field r "counterparty_channel_id";
   field r "counterparty_port_id"; field r "counterparty_chain_id";
   field r "connection_id"; field r "client_id"].

Section Table.

(** The text [str(x)] of a value that is not a string. *)
Variable text_of : value -> string.

Definition str (x : value) : string :=
  match x with
  | VStr s => s
  | _ => text_of x
  end.

(** [max(len(str(x)) for x in [h] + [row[i] for row in table])]. *)
Definition column_width (table : list (list value)) (i : nat) (h : string) : nat :=
  max_list (map (fun x => String.length (str x))
              (VStr h :: map (fun row => nth i row VNone) table)).

Definition table_widths (table : list (list value)) : list nat :=
  imap (column_width table) headers.

(** [fmt_row]; every row it is given has as many cells as [widths]. *)
Definition fmt_row (widths : list nat) (row : list value) : string :=
  join "  " (imap (fun i val => ljust (str val) (nth i widths O)) row).

(** The list [lines]. *)
Definition format_table_lines (rows : list dict) : list string :=
  let table := map table_row rows in
  let widths := table_widths table in
  fmt_row widths (map VStr headers)
  :: fmt_row widths (map (fun w => VStr (string_mul "-" w)) widths)
  :: map (fmt_row widths) table.

Definition format_table (rows : list dict) : string :=
  join newline (format_table_lines rows).

End Table.

(** ** An endpoint whose list never ends

    [https://e.example] answers every list request with one channel and
    the cursor it was asked with first. *)

Module Endless.

Definition server (req : request) : reply :=
  match req with
  | ListChannels _ _ _ =>
      Json (Demo.page [Demo.channel_entry "channel-0" "STATE_OPEN"] (VStr "AAE="))
  | _ => Demo.not_found
  end.

Definition http (req : request) (w : unit) : reply * unit := (server req, w).

End Endless.

(** * Properties *)

(** ** Channel-id normalization *)

Lemma parse_channel_number_str (s : string) :
  parse_channel_number (VStr s) = None
  \/ exists n : Z, parse_channel_number (VStr s) = Some (PInt n).
Proof.
  unfold parse_channel_number, parse_channel_number_try.
  destruct (negb (truthy (VStr s))); [now left|].
  destruct (startswith s "channel-").
  - destruct (str_index (py_split1 "-" s) 1) as [t| |]; cbn [obind]; auto.
    destruct (py_int (VStr t)) as [n| |]; cbn [obind]; eauto.
  - destruct (py_int (VStr s)) as [n| |]; cbn [obind]; eauto.
Qed.

(** C8. [parse_channel_number] follows the table ("channel-56" gives 56,
    "channel-abc" gives None, "7" gives 7, None gives None), and on every
    string it returns an integer or None: the exceptions of its [try] block
    never leave it. *)
Theorem parse_channel_number_table_total :
  parse_channel_number (VStr "channel-56") = Some (PInt 56)
  /\ parse_channel_number (VStr "channel-abc") = None
  /\ parse_channel_number (VStr "7") = Some (PInt 7)
  /\ parse_channel_number VNone = None
  /\ forall s : string,
       parse_channel_number (VStr s) = None
       \/ exists n : Z, parse_channel_number (VStr s) = Some (PInt n).
Proof.
  repeat split; try reflexivity.
  apply parse_channel_number_str.
Qed.

(** ** The stored leaf, read back by [should_replace] *)

Lemma existing_state_leaf (c : cand) :
  value_is_str (existing_state_of (leaf_of c)) "OPEN" = is_open c.
Proof.
  unfold existing_state_of, leaf_of, candidate, is_open, py_or. simpl.
  destruct (String.eqb (state_norm c) "") eqn:E; simpl; [|reflexivity].
  apply String.eqb_eq in E. rewrite E. reflexivity.
Qed.

Lemma existing_num_leaf (c : cand) : existing_num_of (leaf_of c) = num_of c.
Proof.
  unfold existing_num_of, leaf_of, candidate, num_of. simpl.
  destruct (src_num c) as [[n|[]]|]; reflexivity.
Qed.

Lemma should_replace_decision (existing : option dict) (c : cand) :
  should_replace existing (state_norm c) (src_num c)
  = beats (abstract_entry existing) (rank c).
Proof.
  unfold should_replace, beats, abstract_entry, rank, num_of, is_open.
  destruct existing as [[|kv e]|]; try reflexivity.
  destruct (value_is_str _ "OPEN"), (String.eqb (state_norm c) "OPEN"); simpl;
    try reflexivity;
    destruct (existing_num_of _); try reflexivity;
    destruct (src_num c); reflexivity.
Qed.

Lemma abstract_leaf (c : cand) : abstract_entry (Some (leaf_of c)) = Some (rank c).
Proof.
  unfold abstract_entry, rank.
  rewrite existing_state_leaf, existing_num_leaf. reflexivity.
Qed.

(** ** OPEN wins *)

(** C5. Against a stored entry whose state is not OPEN, a candidate whose
    normalized state is OPEN replaces it; against a stored entry whose state
    is OPEN, a candidate that is not OPEN is dropped. Neither decision looks
    at the source-channel numbers. *)
Theorem open_wins_never_downgraded
    (local_map : gmap hkey dict) (c : cand) (existing : dict) :
  local_map !! cp_key c = Some existing ->
  (value_is_str (existing_state_of existing) "OPEN" = false ->
   state_norm c = "OPEN" ->
   store local_map c = <[cp_key c := leaf_of c]> local_map)
  /\ (value_is_str (existing_state_of existing) "OPEN" = true ->
      state_norm c <> "OPEN" ->
      store local_map c = local_map).
Proof.
  intros Hl. unfold store. rewrite Hl. unfold should_replace. split.
  - intros Hs Hc. destruct existing; [reflexivity|].
    rewrite Hs, Hc. reflexivity.
  - intros Hs Hc. destruct existing; [discriminate Hs|].
    rewrite Hs. apply String.eqb_neq in Hc. rewrite Hc. reflexivity.
Qed.

(** ** Exact ties *)

(** C10. When the stored entry and the candidate agree on OPEN-ness and the
    stored source number equals the candidate's, the stored entry stays,
    whatever the destination numbers and the exact state strings are. *)
Theorem exact_tie_keeps_existing
    (local_map : gmap hkey dict) (c : cand) (existing : dict) (n : Z) (i : pyint) :
  local_map !! cp_key c = Some existing ->
  value_is_str (existing_state_of existing) "OPEN" = is_open c ->
  existing_num_of existing = Some n ->
  src_num c = Some i ->
  int_val i = n ->
  store local_map c = local_map.
Proof.
  intros Hl Hs Hn Hc Hi. unfold store.
  rewrite should_replace_decision, Hl.
  unfold abstract_entry, beats, rank, num_of.
  destruct existing as [|kv e]; [discriminate Hn|].
  rewrite Hs, Hn, Hc. simpl. rewrite Hi.
  destruct (is_open c); simpl; rewrite Z.ltb_irrefl; reflexivity.
Qed.

(** ** Order of processing *)

Lemma tieb_sym (a b : cand) : tieb a b = tieb b a.
Proof.
  unfold tieb.
  rewrite (bool_decide_ext (cp_key a = cp_key b) (cp_key b = cp_key a)) by (split; congruence).
  rewrite (bool_decide_ext (num_of a = num_of b) (num_of b = num_of a)) by (split; congruence).
  destruct (is_open a), (is_open b); reflexivity.
Qed.

Lemma store_lookup_ne (local_map : gmap hkey dict) (c : cand) (k : hkey) :
  cp_key c <> k -> store local_map c !! k = local_map !! k.
Proof.
  intros Hne. unfold store.
  destruct (should_replace _ _ _); [|reflexivity].
  now rewrite lookup_insert_ne.
Qed.

Lemma store_decision (local_map : gmap hkey dict) (c : cand) :
  store local_map c
  = if beats (abstract_entry (local_map !! cp_key c)) (rank c)
    then <[cp_key c := leaf_of c]> local_map
    else local_map.
Proof. unfold store. now rewrite should_replace_decision. Qed.

(** On distinct ranks [beats] is a strict comparison: of two candidates
    exactly one beats the other, and a candidate that beats the stored entry
    is not beaten by one that does not. *)
Lemma beats_distinct (existing : option (bool * option Z)) (ra rb : bool * option Z) :
  ra <> rb ->
  beats (Some ra) rb = negb (beats (Some rb) ra)
  /\ (beats existing ra = true -> beats existing rb = false -> beats (Some ra) rb = false).
Proof.
  intros Hne.
  destruct ra as [oa na], rb as [ob nb].
  assert (Hn : oa = ob -> na <> nb) by (intros -> ->; now apply Hne).
  destruct existing as [[eo en]|], oa, ob, na as [na|], nb as [nb|];
    try destruct eo; try destruct en as [e|];
    cbn -[Z.ltb];
    repeat match goal with
           | |- context [?x <? ?y] => destruct (Z.ltb_spec x y)
           end;
    cbn; split; intros; try reflexivity; try discriminate; try lia;
    try (exfalso; apply Hn; [reflexivity|]; f_equal; lia);
    exfalso; now apply Hn.
Qed.

(** Two candidates that do not tie can be stored in either order. *)
Lemma store_swap (local_map : gmap hkey dict) (a b : cand) :
  tieb a b = false ->
  store (store local_map a) b = store (store local_map b) a.
Proof.
  intros Ht.
  destruct (decide (cp_key a = cp_key b)) as [Hk|Hk].
  - assert (Hr : rank a <> rank b).
    { intros Hr. unfold tieb in Ht. injection Hr as Ho Hn.
      rewrite bool_decide_eq_true_2 in Ht by exact Hk.
      rewrite bool_decide_eq_true_2 in Ht by exact Hn.
      rewrite Ho in Ht. now destruct (is_open b). }
    rewrite !store_decision. rewrite <- Hk.
    set (E := abstract_entry (local_map !! cp_key a)).
    destruct (beats_distinct E (rank a) (rank b) Hr) as [Hab Ha].
    destruct (beats_distinct E (rank b) (rank a) (not_eq_sym Hr)) as [_ Hb].
    destruct (beats E (rank a)) eqn:Ea, (beats E (rank b)) eqn:Eb;
      rewrite ?lookup_insert_eq, ?abstract_leaf; fold E; rewrite ?Ea, ?Eb.
    + rewrite Hab. destruct (beats (Some (rank b)) (rank a)); simpl;
        now rewrite insert_insert_eq.
    + now rewrite Ha.
    + now rewrite Hb.
    + reflexivity.
  - unfold store at 1 3.
    rewrite !store_lookup_ne by congruence.
    unfold store.
    destruct (should_replace (local_map !! cp_key a) _ _),
             (should_replace (local_map !! cp_key b) _ _); try reflexivity.
    now apply insert_insert_ne.
Qed.

Lemma no_ties_cons (c : cand) (cs : list cand) :
  no_ties (c :: cs) = true <->
  (forall c', In c' cs -> tieb c c' = false) /\ no_ties cs = true.
Proof.
  cbn [no_ties]. rewrite andb_true_iff, forallb_forall.
  split; intros [H1 H2]; split; auto; intros c' Hin.
  - apply negb_true_iff. auto.
  - apply negb_true_iff. auto.
Qed.

(** Storing a tie-free list of candidates gives the same map in every
    order. *)
Lemma store_all_perm (cs cs' : list cand) :
  Permutation cs cs' ->
  no_ties cs = true ->
  no_ties cs' = true
  /\ forall local_map, store_all local_map cs = store_all local_map cs'.
Proof.
  induction 1 as [|x l l' Hp IH|x y l|l l' l'' Hp1 IH1 Hp2 IH2]; intros Hn.
  - split; [reflexivity|]. reflexivity.
  - apply no_ties_cons in Hn as [Hx Hl].
    destruct (IH Hl) as [Hl' Heq]. split.
    + apply no_ties_cons. split; [|exact Hl'].
      intros c' Hin. apply Hx. eapply Permutation_in; [symmetry; exact Hp|exact Hin].
    + intros local_map. cbn. apply Heq.
  - apply no_ties_cons in Hn as [Hy Hn].
    apply no_ties_cons in Hn as [Hx Hl]. split.
    + apply no_ties_cons. split.
      * intros c' [<-|Hin]; [|now apply Hx].
        rewrite tieb_sym. apply Hy. now left.
      * apply no_ties_cons. split; [|exact Hl].
        intros c' Hin. apply Hy. now right.
    + intros local_map. cbn. f_equal.
      apply store_swap. apply Hy. now left.
  - destruct (IH1 Hn) as [Hn' Heq1]. destruct (IH2 Hn') as [Hn'' Heq2].
    split; [exact Hn''|]. intros local_map. now rewrite Heq1.
Qed.

Lemma aggregate_rows_candidates (chain_id_to_symbol : gmap hkey string)
    (rows : list dict) :
  forall (local_map : gmap hkey dict) (cs : list cand),
    candidates chain_id_to_symbol rows = Ok cs ->
    aggregate_rows chain_id_to_symbol local_map rows = Ok (store_all local_map cs).
Proof.
  induction rows as [|r rows IH]; intros local_map cs Hc; cbn in *.
  - injection Hc as <-. reflexivity.
  - unfold aggregate_row.
    destruct (row_candidate chain_id_to_symbol r) as [c| |]; cbn in *; try discriminate.
    destruct (candidates chain_id_to_symbol rows) as [cs0| |]; cbn in *; try discriminate.
    injection Hc as <-.
    destruct c as [c|]; cbn; now apply IH.
Qed.

Lemma candidates_perm (chain_id_to_symbol : gmap hkey string) (rows rows' : list dict) :
  Permutation rows rows' ->
  forall cs, candidates chain_id_to_symbol rows = Ok cs ->
  exists cs', candidates chain_id_to_symbol rows' = Ok cs' /\ Permutation cs cs'.
Proof.
  induction 1 as [|x l l' Hp IH|x y l|l l' l'' Hp1 IH1 Hp2 IH2]; intros cs Hc.
  - exists cs. split; [exact Hc|reflexivity].
  - cbn in *.
    destruct (row_candidate chain_id_to_symbol x) as [c| |]; cbn in *; try discriminate.
    destruct (candidates chain_id_to_symbol l) as [cs0| |]; cbn in *; try discriminate.
    destruct (IH cs0 eq_refl) as [cs1 [-> Hp1]]. cbn.
    injection Hc as <-. eexists. split; [reflexivity|].
    destruct c; [now constructor|exact Hp1].
  - cbn in *.
    destruct (row_candidate chain_id_to_symbol y) as [cy| |]; cbn in *; try discriminate.
    destruct (row_candidate chain_id_to_symbol x) as [cx| |]; cbn in *; try discriminate.
    destruct (candidates chain_id_to_symbol l) as [cs0| |]; cbn in *; try discriminate.
    injection Hc as <-. eexists. split; [reflexivity|].
    destruct cx, cy; try reflexivity. apply perm_swap.
  - destruct (IH1 cs Hc) as [cs1 [Hc1 Hp1']].
    destruct (IH2 cs1 Hc1) as [cs2 [Hc2 Hp2']].
    exists cs2. split; [exact Hc2|]. now transitivity cs1.
Qed.

(** C2 (amended). Candidates that do not tie can be merged in either order,
    and a list of rows whose candidates are pairwise tie-free leaves the same
    entries in every order of processing. *)
Theorem aggregation_order_independent_without_ties :
  (forall (local_map : gmap hkey dict) (a b : cand),
      tieb a b = false ->
      store (store local_map a) b = store (store local_map b) a)
  /\ (forall (chain_id_to_symbol : gmap hkey string) (local_map : gmap hkey dict)
        (rows rows' : list dict) (cs : list cand),
        candidates chain_id_to_symbol rows = Ok cs ->
        no_ties cs = true ->
        Permutation rows rows' ->
        aggregate_rows chain_id_to_symbol local_map rows'
        = aggregate_rows chain_id_to_symbol local_map rows).
Proof.
  split.
  - intros local_map a b Ht. now apply store_swap.
  - intros cmap local_map rows rows' cs Hc Hn Hp.
    destruct (candidates_perm cmap rows rows' Hp cs Hc) as [cs' [Hc' Hpc]].
    rewrite (aggregate_rows_candidates cmap rows local_map cs Hc).
    rewrite (aggregate_rows_candidates cmap rows' local_map cs' Hc').
    f_equal. symmetry. now apply store_all_perm.
Qed.

(** ** The pipeline *)

Section PipelineFacts.

Context {W : Type}.
Variable http_get_json : request -> W -> reply * W.

(** *** Pagination *)

Lemma paginate_loop_step (fuel : nat) (base : string) (limit : Z)
    (channels : list value) (key : value) (w w' : W)
    (data : value) (items : list value) (next_key : value) :
  http_get_json (ListChannels base limit (cursor_param key)) w = (Json data, w') ->
  page_items data = Ok items ->
  page_cursor data = Ok next_key ->
  paginate_loop http_get_json (S fuel) base limit channels key w
  = if negb (truthy next_key) then (Ok (channels ++ items), w')
    else paginate_loop http_get_json fuel base limit (channels ++ items) next_key w'.
Proof.
  intros Hreq Hitems Hcur.
  cbn [paginate_loop]. unfold mbind, call, lift. rewrite Hreq.
  unfold page_items in Hitems. unfold page_cursor in Hcur.
  destruct (py_get_default data "channels" (VList [])) as [cs| |]; try discriminate.
  cbn [obind] in Hitems. rewrite Hitems.
  destruct (py_get data "pagination") as [pg| |]; try discriminate.
  cbn [obind] in Hcur. rewrite Hcur.
  destruct (negb (truthy next_key)); reflexivity.
Qed.

Lemma paginate_loop_fetches (base : string) (limit : Z) (key : value)
    (w w' : W) (pages : list (list value)) :
  fetches http_get_json base limit key w pages w' ->
  forall (fuel : nat) (channels : list value),
    (length pages <= fuel)%nat ->
    paginate_loop http_get_json fuel base limit channels key w
    = (Ok (channels ++ concat pages), w').
Proof.
  induction 1 as [key w data items nk w' Hreq Hi Hc Hnk
                 |key w data items nk w' pages w'' Hreq Hi Hc Hnk Hf IH];
    intros fuel channels Hfuel.
  - destruct fuel as [|fuel]; [cbn in Hfuel; lia|].
    rewrite (paginate_loop_step _ _ _ _ _ _ _ _ _ _ Hreq Hi Hc), Hnk.
    cbn. now rewrite app_nil_r.
  - destruct fuel as [|fuel]; [cbn in Hfuel; lia|].
    rewrite (paginate_loop_step _ _ _ _ _ _ _ _ _ _ Hreq Hi Hc), Hnk.
    cbn [negb]. rewrite IH by (cbn in Hfuel; lia).
    cbn. now rewrite app_assoc.
Qed.

Lemma paginate_loop_short (base : string) (limit : Z) (key : value)
    (w w' : W) (pages : list (list value)) :
  fetches http_get_json base limit key w pages w' ->
  forall (fuel : nat) (channels : list value),
    (fuel < length pages)%nat ->
    fst (paginate_loop http_get_json fuel base limit channels key w) = Diverge.
Proof.
  induction 1 as [key w data items nk w' Hreq Hi Hc Hnk
                 |key w data items nk w' pages w'' Hreq Hi Hc Hnk Hf IH];
    intros fuel channels Hfuel.
  - destruct fuel as [|fuel]; [reflexivity|cbn in Hfuel; lia].
  - destruct fuel as [|fuel]; [reflexivity|].
    rewrite (paginate_loop_step _ _ _ _ _ _ _ _ _ _ Hreq Hi Hc), Hnk.
    cbn [negb]. apply IH. cbn in Hfuel. lia.
Qed.

(** C7. When the list requests are answered by a run of responses of which
    the last is the first without a cursor, [paginate_channels] returns,
    with one unit of fuel per response, the concatenation of the pages in
    order, having issued no request after that response; with less fuel it
    has not halted yet. The length of the result is the sum of the page
    sizes. *)
Theorem paginate_channels_fetches_all (base : string) (limit : Z)
    (w w' : W) (pages : list (list value)) :
  fetches http_get_json base limit VNone w pages w' ->
  (forall fuel : nat, (length pages <= fuel)%nat ->
     paginate_channels http_get_json fuel base limit w = (Ok (concat pages), w'))
  /\ (forall fuel : nat, (fuel < length pages)%nat ->
        fst (paginate_channels http_get_json fuel base limit w) = Diverge)
  /\ length (concat pages) = sum_list (map length pages).
Proof.
  intros Hf. repeat split.
  - intros fuel Hfuel. unfold paginate_channels.
    now rewrite (paginate_loop_fetches _ _ _ _ _ _ Hf).
  - intros fuel Hfuel. unfold paginate_channels.
    now apply (paginate_loop_short _ _ _ _ _ _ Hf).
  - clear Hf. induction pages as [|pg pages IH]; [reflexivity|].
    cbn. rewrite length_app. now rewrite IH.
Qed.

(** *** The channel resolver *)

Lemma resolve_channel_info (base port_filter : string) (state_filter : option string)
    (ch : value) (w w' : W) (info : dict) :
  resolve_channel http_get_json base port_filter state_filter ch w = (Ok (Some info), w') ->
  exists d : dict,
    ch = VDict d
    /\ dict_get info "channel_id" = dict_get d "channel_id"
    /\ dict_get info "port_id" = dict_get d "port_id"
    /\ dict_get info "state" = dict_get d "state"
    /\ dict_has info "error" = false.
Proof.
  intros H. destruct ch as [| | | | |d]; try discriminate H.
  exists d. split; [reflexivity|].
  unfold resolve_channel, mbind, lift, mret, get_channel, get_connection,
    get_client_state, call in H.
  cbn [py_get] in H.
  repeat match type of H with
         | context [if ?b then _ else _] => destruct b
         | context [match ?x with _ => _ end] => destruct x
         end; try discriminate H.
  all: injection H as <- _; repeat split; reflexivity.
Qed.

Lemma error_row_has_error (ch : value) (e : string) (stub : dict) :
  error_row ch e = Ok stub -> dict_has stub "error" = true.
Proof.
  unfold error_row. destruct ch; try discriminate.
  cbn. intros [= <-]. reflexivity.
Qed.

Lemma record_error_rows (out : list dict) (ch : value) (e : string)
    (w w' : W) (out' : list dict) :
  record_error out ch e w = (Ok out', w') ->
  exists stub, out' = out ++ [stub] /\ dict_has stub "error" = true.
Proof.
  unfold record_error, lift. intros [= H <-].
  destruct (error_row ch e) as [stub| |] eqn:E; try discriminate H.
  cbn in H. injection H as <-.
  exists stub. split; [reflexivity|]. eapply error_row_has_error; exact E.
Qed.

(** What one channel adds to [out]: error stubs, and at most one row that
    carries the fields of the list entry unchanged. *)
Lemma map_channels_step_rows (base port_filter : string) (state_filter : option string)
    (delay_ms : Z) (out : list dict) (ch : value) (w w' : W) (out' : list dict) :
  map_channels_step http_get_json base port_filter state_filter delay_ms out ch w
  = (Ok out', w') ->
  exists added : list dict,
    out' = out ++ added
    /\ forall r, In r added ->
         dict_has r "error" = true
         \/ exists d, ch = VDict d /\ raw_row d r.
Proof.
  unfold map_channels_step. intros H.
  destruct (resolve_channel http_get_json base port_filter state_filter ch w)
    as [[[info|]| |] w1] eqn:E.
  - apply resolve_channel_info in E as (d & -> & Hc & Hp & Hs & He).
    assert (Hinfo : forall r, In r [info] ->
              dict_has r "error" = true
              \/ exists d0, VDict d = VDict d0 /\ raw_row d0 r).
    { intros r [<-|[]]. right. exists d. repeat split; assumption. }
    destruct (delay_ms =? 0).
    + injection H as <- <-. exists [info]. split; [reflexivity|exact Hinfo].
    + destruct (py_sleep delay_ms) as [[]|e|]; try discriminate H.
      * injection H as <- <-. exists [info]. split; [reflexivity|exact Hinfo].
      * apply record_error_rows in H as (stub & -> & Hstub).
        exists [info; stub]. split; [now rewrite <- app_assoc|].
        intros r [<-|[<-|[]]]; [apply Hinfo; now left|now left].
  - injection H as <- <-. exists []. split; [now rewrite app_nil_r|].
    intros r [].
  - apply record_error_rows in H as (stub & -> & Hstub).
    exists [stub]. split; [reflexivity|]. intros r [<-|[]]. now left.
  - discriminate H.
Qed.

Lemma map_channels_loop_rows (base port_filter : string) (state_filter : option string)
    (delay_ms : Z) (all_channels : list value) :
  forall (out : list dict) (w w' : W) (rows : list dict),
    map_channels_loop http_get_json base port_filter state_filter delay_ms
      all_channels out w = (Ok rows, w') ->
    exists added : list dict,
      rows = out ++ added
      /\ forall r, In r added ->
           dict_has r "error" = true
           \/ exists d, In (VDict d) all_channels /\ raw_row d r.
Proof.
  induction all_channels as [|ch rest IH]; intros out w w' rows H.
  - cbn in H. injection H as <- <-. exists []. split; [now rewrite app_nil_r|].
    intros r [].
  - cbn [map_channels_loop] in H. unfold mbind in H.
    destruct (map_channels_step http_get_json base port_filter state_filter
                delay_ms out ch w) as [[out1| |] w1] eqn:E; try discriminate H.
    apply map_channels_step_rows in E as (added1 & -> & H1).
    apply IH in H as (added2 & -> & H2).
    exists (added1 ++ added2). split; [now rewrite app_assoc|].
    intros r Hin. apply in_app_or in Hin as [Hin|Hin].
    + destruct (H1 r Hin) as [He|(d & -> & Hr)]; [now left|].
      right. exists d. split; [now left|exact Hr].
    + destruct (H2 r Hin) as [He|(d & Hd & Hr)]; [now left|].
      right. exists d. split; [now right|exact Hr].
Qed.

Lemma normalize_state_prefixed (s : string) :
  normalize_state (VStr ("STATE_" +:+ s)) = Ok (Some s).
Proof. destruct s; reflexivity. Qed.

(** C4 (amended). A row that [map_channels] returns without an [error]
    carries the [state] of its entry in the channel list unchanged; the
    [STATE_] prefix is removed by the aggregator, when [normalize_state]
    builds the state of the candidate. *)
Theorem resolved_rows_keep_raw_state :
  (forall (fuel : nat) (base port_filter : string) (state_filter : option string)
      (limit delay_ms : Z) (w w' : W) (rows : list dict),
      map_channels http_get_json fuel base port_filter state_filter limit delay_ms w
      = (Ok rows, w') ->
      exists (all_channels : list value) (w1 : W),
        paginate_channels http_get_json fuel base limit w = (Ok all_channels, w1)
        /\ forall r, In r rows -> dict_has r "error" = false ->
             exists d, In (VDict d) all_channels /\ raw_row d r)
  /\ (forall (chain_id_to_symbol : gmap hkey string) (r : dict) (c : cand) (s : string),
        row_candidate chain_id_to_symbol r = Ok (Some c) ->
        dict_get r "state" = VStr ("STATE_" +:+ s) ->
        state_norm c = str_or (Some s) "UNKNOWN").
Proof.
  split.
  - intros fuel base port_filter state_filter limit delay_ms w w' rows H.
    unfold map_channels, mbind in H.
    destruct (paginate_channels http_get_json fuel base limit w)
      as [[all_channels| |] w1] eqn:E; try discriminate H.
    exists all_channels, w1. split; [reflexivity|].
    apply map_channels_loop_rows in H as (added & -> & Hadded).
    intros r Hin Herr. cbn in Hin.
    destruct (Hadded r Hin) as [He|Hd]; [congruence|exact Hd].
  - intros cmap r c s H Hs. unfold row_candidate in H. rewrite Hs in H.
    rewrite normalize_state_prefixed in H.
    repeat match type of H with
           | context [if ?b then _ else _] => destruct b
           | context [obind ?x _] => destruct x; cbn [obind] in H
           end; try discriminate H.
    now injection H as <-.
Qed.

(** *** Channels without connection hops *)

Lemma map_channels_loop_app (base port_filter : string) (state_filter : option string)
    (delay_ms : Z) (l1 l2 : list value) :
  forall (out : list dict) (w : W),
    map_channels_loop http_get_json base port_filter state_filter delay_ms
      (l1 ++ l2) out w
    = mbind (map_channels_loop http_get_json base port_filter state_filter delay_ms l1 out)
        (fun out' => map_channels_loop http_get_json base port_filter state_filter
                       delay_ms l2 out') w.
Proof.
  induction l1 as [|ch l1 IH]; intros out w.
  - reflexivity.
  - cbn [app map_channels_loop]. unfold mbind.
    destruct (map_channels_step _ _ _ _ _ _ _ w) as [[out1| |] w1]; try reflexivity.
    rewrite IH. reflexivity.
Qed.


(** *** The aggregate *)

Lemma str_or_nonempty (o : option string) (d : string) :
  d <> "" -> str_or o d <> "".
Proof.
  intros Hd. unfold str_or. destruct o as [s|]; [|exact Hd].
  destruct (String.eqb s "") eqn:E; [exact Hd|]. now apply String.eqb_neq.
Qed.









(** *** Isolation of a failing endpoint *)






(** A row whose error message is not empty is skipped by the aggregator. *)
Lemma errored_row_skipped (chain_id_to_symbol : gmap hkey string)
    (local_map : gmap hkey dict) (r : dict) :
  truthy (dict_get r "error") = true ->
  aggregate_row chain_id_to_symbol local_map r = Ok local_map.
Proof.
  intros He. unfold aggregate_row, row_candidate. now rewrite He.
Qed.

End PipelineFacts.

(** The configured registry has one endpoint per symbol, as the isolation
    result requires. *)
Lemma registry_symbols_distinct : NoDup (map fst TENDERMINT_API_URLS).
Proof. apply (bool_decide_unpack _). reflexivity. Qed.

(** * Further properties *)

(** ** The stored entry is the best candidate *)

Lemma rank_le_refl (r : bool * option Z) : rank_le r r = true.
Proof.
  destruct r as [[] [n|]]; cbn; try reflexivity; apply Z.leb_refl.
Qed.

Lemma rank_le_trans (a b c : bool * option Z) :
  rank_le a b = true -> rank_le b c = true -> rank_le a c = true.
Proof.
  destruct a as [[] [x|]], b as [[] [y|]], c as [[] [z|]]; cbn;
    try reflexivity; try discriminate;
    intros H1 H2; apply Z.leb_le in H1, H2; apply Z.leb_le; lia.
Qed.

Lemma beats_true_le (e r : bool * option Z) :
  beats (Some e) r = true -> rank_le r e = true.
Proof.
  destruct e as [[] [x|]], r as [[] [y|]]; cbn;
    try reflexivity; try discriminate;
    intros H; apply Z.ltb_lt in H; apply Z.leb_le; lia.
Qed.

Lemma beats_false_le (e r : bool * option Z) :
  beats (Some e) r = false -> rank_le e r = true.
Proof.
  destruct e as [[] [x|]], r as [[] [y|]]; cbn;
    try reflexivity; try discriminate;
    intros H; apply Z.ltb_ge in H; apply Z.leb_le; lia.
Qed.

Lemma best_in_weaken (seen : list cand) (c0 : cand) (k : hkey) (leaf : dict) :
  best_in seen k leaf -> cp_key c0 <> k -> best_in (c0 :: seen) k leaf.
Proof.
  intros (c & Hin & Hk & Hl & Hbest) Hne.
  exists c. repeat split; try assumption; [now right|].
  intros c' [<-|Hin'] Hk'; [contradiction|now apply Hbest].
Qed.

(** One candidate more: the map keeps, for every key, a best candidate of
    those seen, and has an entry for each of them. *)
Lemma store_best (local_map : gmap hkey dict) (seen : list cand) (c : cand) :
  (forall k leaf, local_map !! k = Some leaf -> best_in seen k leaf) ->
  (forall c', In c' seen -> is_Some (local_map !! cp_key c')) ->
  (forall k leaf, store local_map c !! k = Some leaf -> best_in (c :: seen) k leaf)
  /\ (forall c', In c' (c :: seen) -> is_Some (store local_map c !! cp_key c')).
Proof.
  intros Hbest Hpres.
  rewrite store_decision.
  destruct (local_map !! cp_key c) as [e|] eqn:He.
  - destruct (Hbest _ _ He) as (ce & Hin & Hk & -> & Hmin).
    rewrite abstract_leaf.
    destruct (beats (Some (rank ce)) (rank c)) eqn:Hb.
    + apply beats_true_le in Hb. split.
      * intros k leaf. rewrite lookup_insert. case_decide as Hkc.
        -- intros [= <-]. exists c. repeat split; [now left|exact Hkc|].
           intros c' [<-|Hin'] Hk'; [apply rank_le_refl|].
           eapply rank_le_trans; [exact Hb|]. apply Hmin; [exact Hin'|congruence].
        -- intros Hl. apply best_in_weaken; [now apply Hbest|exact Hkc].
      * intros c' Hin'. rewrite lookup_insert. case_decide; [eauto|].
        destruct Hin' as [<-|Hin']; [contradiction|now apply Hpres].
    + apply beats_false_le in Hb. split.
      * intros k leaf Hl. destruct (decide (cp_key c = k)) as [Hkc|Hkc].
        -- subst k. rewrite He in Hl. injection Hl as <-.
           exists ce. repeat split; [now right|exact Hk|].
           intros c' [<-|Hin'] Hk'; [exact Hb|now apply Hmin].
        -- apply best_in_weaken; [now apply Hbest|exact Hkc].
      * intros c' [<-|Hin']; [rewrite He; eauto|now apply Hpres].
  - cbn. split.
    + intros k leaf. rewrite lookup_insert. case_decide as Hkc.
      * intros [= <-]. exists c. repeat split; [now left|exact Hkc|].
        intros c' [<-|Hin'] Hk'; [apply rank_le_refl|].
        destruct (Hpres c' Hin') as [x Hx]. congruence.
      * intros Hl. apply best_in_weaken; [now apply Hbest|exact Hkc].
    + intros c' Hin'. rewrite lookup_insert. case_decide; [eauto|].
      destruct Hin' as [<-|Hin']; [contradiction|now apply Hpres].
Qed.

Lemma best_in_perm (seen seen' : list cand) (k : hkey) (leaf : dict) :
  (forall c, In c seen -> In c seen') ->
  (forall c, In c seen' -> In c seen) ->
  best_in seen k leaf -> best_in seen' k leaf.
Proof.
  intros H1 H2 (c & Hin & Hk & Hl & Hmin).
  exists c. repeat split; auto.
Qed.

Lemma store_all_best (cs : list cand) :
  forall (local_map : gmap hkey dict) (seen : list cand),
    (forall k leaf, local_map !! k = Some leaf -> best_in seen k leaf) ->
    (forall c', In c' seen -> is_Some (local_map !! cp_key c')) ->
    (forall k leaf, store_all local_map cs !! k = Some leaf -> best_in (seen ++ cs) k leaf)
    /\ (forall c', In c' (seen ++ cs) -> is_Some (store_all local_map cs !! cp_key c')).
Proof.
  induction cs as [|c cs IH]; intros local_map seen Hbest Hpres.
  - cbn. rewrite app_nil_r. split; assumption.
  - cbn [store_all fold_left].
    destruct (store_best local_map seen c Hbest Hpres) as [Hb Hp].
    destruct (IH (store local_map c) (c :: seen) Hb Hp) as [Hb' Hp'].
    split.
    + intros k leaf Hl. apply (best_in_perm ((c :: seen) ++ cs)); [| |now apply Hb'].
      * intros x. rewrite !in_app_iff. cbn. tauto.
      * intros x. rewrite !in_app_iff. cbn. tauto.
    + intros c' Hin. apply Hp'. revert Hin. rewrite !in_app_iff. cbn. tauto.
Qed.

(** X1. When the rows of an endpoint are aggregated into an empty map, the
    entry stored for a counterparty key is the leaf of one of the candidates
    for that key, and no candidate for the key is better than it (OPEN
    first, then the smaller source number, unparseable last); every
    candidate's key has an entry. *)
Theorem best_candidate_stored (chain_id_to_symbol : gmap hkey string)
    (rows : list dict) (cs : list cand) :
  candidates chain_id_to_symbol rows = Ok cs ->
  exists local_map : gmap hkey dict,
    aggregate_rows chain_id_to_symbol ∅ rows = Ok local_map
    /\ (forall k leaf, local_map !! k = Some leaf -> best_in cs k leaf)
    /\ (forall c, In c cs -> is_Some (local_map !! cp_key c)).
Proof.
  intros Hc. exists (store_all ∅ cs). split.
  - now apply aggregate_rows_candidates.
  - apply (store_all_best cs ∅ []).
    + intros k leaf. now rewrite lookup_empty.
    + intros c' [].
Qed.

(** ** What the aggregation loop leaves alone *)

Lemma store_keeps (local_map : gmap hkey dict) (c : cand) (k : hkey) :
  is_Some (local_map !! k) -> is_Some (store local_map c !! k).
Proof.
  intros Hk. unfold store. destruct (should_replace _ _ _); [|exact Hk].
  rewrite lookup_insert. case_decide; [eauto|exact Hk].
Qed.

(** X2. Storing candidates never removes an entry, and leaves every key that
    is not the key of one of the candidates exactly as it was. *)
Theorem store_all_frame (cs : list cand) (local_map : gmap hkey dict) (k : hkey) :
  (is_Some (local_map !! k) -> is_Some (store_all local_map cs !! k))
  /\ ((forall c, In c cs -> cp_key c <> k) ->
      store_all local_map cs !! k = local_map !! k).
Proof.
  revert local_map. induction cs as [|c cs IH]; intros local_map.
  - split; [tauto|reflexivity].
  - cbn [store_all fold_left]. destruct (IH (store local_map c)) as [IH1 IH2]. split.
    + intros Hk. apply IH1. now apply store_keeps.
    + intros Hne. unfold store_all in IH2. rewrite IH2.
      * apply store_lookup_ne. apply Hne. now left.
      * intros c' Hin. apply Hne. now right.
Qed.

(** ** When the aggregation loop raises *)

Lemma prefix_split (p s : string) :
  String.prefix p s = true -> exists t, s = p +:+ t.
Proof.
  revert s. induction p as [|a p IH]; intros s H.
  - exists s. reflexivity.
  - destruct s as [|b s]; [discriminate H|].
    cbn in H. destruct (ascii_dec a b) as [<-|]; [|discriminate H].
    destruct (IH s H) as [t ->]. exists t. reflexivity.
Qed.

Lemma hash_key_ok (v : value) :
  hashable v = true -> exists k, hash_key v = Ok k.
Proof. destruct v; cbn; try discriminate; eauto. Qed.

Lemma hash_key_bad (v : value) :
  hashable v = false ->
  hash_key v = Raise ("unhashable type: '" +:+ type_name v +:+ "'").
Proof. destruct v; cbn; try discriminate; reflexivity. Qed.

Lemma normalize_state_ok (v : value) :
  state_accepted v = true -> exists o, normalize_state v = Ok o.
Proof.
  unfold normalize_state. destruct (negb (truthy v)) eqn:Ht; [eauto|].
  destruct v as [| | |s| |]; cbn in *; try congruence; try discriminate.
  intros _. destruct (startswith s "STATE_") eqn:Hp; [|eauto].
  apply prefix_split in Hp as [t ->].
  exists (Some t). destruct t; reflexivity.
Qed.

Lemma normalize_state_bad (v : value) :
  state_accepted v = false ->
  normalize_state v
  = Raise ("'" +:+ type_name v +:+ "' object has no attribute 'startswith'").
Proof.
  unfold normalize_state. destruct v as [|[]|n|s|[|x l]|[|x d]]; cbn; try discriminate;
    try reflexivity.
  destruct (n =? 0); cbn; [discriminate|reflexivity].
Qed.

(** X3. One row of the aggregation loop: it is skipped exactly when its
    error is truthy or its port is not "transfer"; otherwise it raises
    exactly when the counterparty chain id is unhashable (a list or a dict)
    or the state is a truthy value that is not a string, and else yields a
    candidate whose state is not empty. The loop body does not fail in
    another way. *)
Theorem row_candidate_outcomes (chain_id_to_symbol : gmap hkey string) (r : dict) :
  match row_candidate chain_id_to_symbol r with
  | Ok None => row_skipped r = true
  | Ok (Some c) =>
      row_skipped r = false
      /\ hashable (dict_get r "counterparty_chain_id") = true
      /\ state_accepted (dict_get r "state") = true
      /\ state_norm c <> ""
  | Raise msg =>
      row_skipped r = false
      /\ ((hashable (dict_get r "counterparty_chain_id") = false
           /\ msg = "unhashable type: '"
                    +:+ type_name (dict_get r "counterparty_chain_id") +:+ "'")
          \/ (hashable (dict_get r "counterparty_chain_id") = true
              /\ state_accepted (dict_get r "state") = false
              /\ msg = "'" +:+ type_name (dict_get r "state")
                       +:+ "' object has no attribute 'startswith'"))
  | Diverge => False
  end.
Proof.
  unfold row_candidate, row_skipped.
  destruct (truthy (dict_get r "error")); [reflexivity|].
  destruct (value_is_str (dict_get r "port_id") "transfer"); [|reflexivity].
  cbn [negb orb].
  destruct (hashable (dict_get r "counterparty_chain_id")) eqn:Hh.
  - destruct (hash_key_ok _ Hh) as [k Hk]. rewrite Hk. cbn [obind].
    assert (exists k', match chain_id_to_symbol !! k with
                       | Some symbol => Ok (KStr symbol)
                       | None => hash_key (py_or (dict_get r "counterparty_chain_id")
                                             (VStr "UNKNOWN"))
                       end = Ok k') as [k' ->].
    { destruct (chain_id_to_symbol !! k); [eauto|].
      apply hash_key_ok. unfold py_or.
      destruct (truthy (dict_get r "counterparty_chain_id")); [exact Hh|reflexivity]. }
    cbn [obind].
    destruct (state_accepted (dict_get r "state")) eqn:Hs.
    + destruct (normalize_state_ok _ Hs) as [o ->]. cbn [obind state_norm].
      repeat split. apply str_or_nonempty. discriminate.
    + rewrite (normalize_state_bad _ Hs). cbn [obind].
      split; [reflexivity|]. right. repeat split.
  - rewrite (hash_key_bad _ Hh). cbn [obind].
    split; [reflexivity|]. left. split; reflexivity.
Qed.

(** ** The pipeline, further *)

Section PipelineMore.

Context {W : Type}.
Variable http_get_json : request -> W -> reply * W.

(** *** The node's own identity *)

Lemma guarded_ok (m : M (W := W) value) (w : W) :
  fst (m w) <> Diverge ->
  exists v w', catch m (fun _ => mret VNone) w = (Ok v, w').
Proof.
  unfold catch, mret. destruct (m w) as [[v|e|] w1]; cbn; intros H.
  - eauto.
  - eauto.
  - contradiction.
Qed.

Lemma lift_bind_no_diverge {A : Type} (o : outcome value) (k : value -> M (W := W) A) (w : W) :
  o <> Diverge ->
  (forall v w1, fst (k v w1) <> Diverge) ->
  fst (mbind (lift o) k w) <> Diverge.
Proof.
  unfold mbind, lift. destruct o as [v|e|]; cbn; intros Ho Hk.
  - apply Hk.
  - discriminate.
  - contradiction.
Qed.

Lemma py_get_no_diverge (v : value) (k : string) : py_get v k <> Diverge.
Proof. destruct v; cbn; discriminate. Qed.

Lemma call_bind_no_diverge {A : Type} (req : request) (k : value -> M (W := W) A) (w : W) :
  (forall v w1, fst (k v w1) <> Diverge) ->
  fst (mbind (call http_get_json req) k w) <> Diverge.
Proof.
  unfold mbind, call. destruct (http_get_json req w) as [[data|e] w1]; cbn; intros Hk.
  - apply Hk.
  - discriminate.
Qed.

Lemma get_local_chain_id_ok (base : string) (w : W) :
  exists (v : value) (w' : W),
    get_local_chain_id http_get_json base w = (Ok v, w')
    /\ (v = VNone \/ truthy v = true).
Proof.
  unfold get_local_chain_id.
  unfold mbind at 1.
  edestruct (guarded_ok
    (mbind (call http_get_json (NodeInfo base))
       (fun data => mbind (lift (py_get data "default_node_info"))
          (fun ni0 => lift (py_get (py_or ni0 (VDict [])) "network")))) w)
    as (v1 & w1 & ->).
  { apply call_bind_no_diverge. intros data w1.
    apply lift_bind_no_diverge; [apply py_get_no_diverge|].
    intros ni0 w2. cbn. apply py_get_no_diverge. }
  destruct (truthy v1) eqn:Ht1.
  { exists v1, w1. split; [reflexivity|now right]. }
  unfold mbind at 1.
  edestruct (guarded_ok
    (mbind (call http_get_json (LatestBlock base))
       (fun data => mbind (lift (py_get data "block"))
          (fun b0 => mbind (lift (py_get (py_or b0 (VDict [])) "header"))
             (fun h0 => lift (py_get (py_or h0 (VDict [])) "chain_id"))))) w1)
    as (v2 & w2 & ->).
  { apply call_bind_no_diverge. intros data w2.
    apply lift_bind_no_diverge; [apply py_get_no_diverge|].
    intros b0 w3.
    apply lift_bind_no_diverge; [apply py_get_no_diverge|].
    intros h0 w4. cbn. apply py_get_no_diverge. }
  destruct (truthy v2) eqn:Ht2.
  - exists v2, w2. split; [reflexivity|now right].
  - exists VNone, w2. split; [reflexivity|now left].
Qed.

(** X4. [get_local_chain_id] never raises, whatever the network answers:
    it returns a truthy identity or None. *)
Theorem get_local_chain_id_total (base : string) (w : W) :
  exists (v : value) (w' : W),
    get_local_chain_id http_get_json base w = (Ok v, w')
    /\ (v = VNone \/ truthy v = true).
Proof. apply get_local_chain_id_ok. Qed.

(** X5. [get_local_chain_id] asks node_info first and stops there when it
    names a network; when node_info fails, the chain id of the latest block
    header is returned if there is one, and None when the second request
    fails too. *)
Theorem get_local_chain_id_primary_then_fallback (base : string) (w : W) :
  (forall (d ni : dict) (w1 : W),
      http_get_json (NodeInfo base) w = (Json (VDict d), w1) ->
      py_or (dict_get d "default_node_info") (VDict []) = VDict ni ->
      truthy (dict_get ni "network") = true ->
      get_local_chain_id http_get_json base w = (Ok (dict_get ni "network"), w1))
  /\ (forall (e : string) (d b h : dict) (w1 w2 : W),
        http_get_json (NodeInfo base) w = (Failure e, w1) ->
        http_get_json (LatestBlock base) w1 = (Json (VDict d), w2) ->
        py_or (dict_get d "block") (VDict []) = VDict b ->
        py_or (dict_get b "header") (VDict []) = VDict h ->
        get_local_chain_id http_get_json base w
        = (Ok (if truthy (dict_get h "chain_id") then dict_get h "chain_id" else VNone),
           w2))
  /\ (forall (e e' : string) (w1 w2 : W),
        http_get_json (NodeInfo base) w = (Failure e, w1) ->
        http_get_json (LatestBlock base) w1 = (Failure e', w2) ->
        get_local_chain_id http_get_json base w = (Ok VNone, w2)).
Proof.
  repeat split.
  - intros d ni w1 Hreq Hni Hnet.
    unfold get_local_chain_id, mbind, catch, call, lift, mret.
    rewrite Hreq. cbn [py_get]. rewrite Hni. cbn [py_get]. now rewrite Hnet.
  - intros e d b h w1 w2 Hreq1 Hreq2 Hb Hh.
    unfold get_local_chain_id, mbind, catch, call, lift, mret.
    rewrite Hreq1. cbn [truthy]. rewrite Hreq2. cbn [py_get]. rewrite Hb.
    cbn [py_get]. rewrite Hh. cbn [py_get].
    destruct (truthy (dict_get h "chain_id")); reflexivity.
  - intros e e' w1 w2 Hreq1 Hreq2.
    unfold get_local_chain_id, mbind, catch, call, lift, mret.
    rewrite Hreq1. cbn [truthy]. now rewrite Hreq2.
Qed.

(** *** The identity map *)

Lemma truthy_hash (v : value) (k : hkey) :
  truthy v = true -> hash_key v = Ok k -> falsy_key k = false.
Proof.
  destruct v as [|[]|n|s|l|d]; cbn; try discriminate; intros Ht [= <-]; cbn.
  - reflexivity.
  - now apply negb_true_iff.
  - now apply negb_true_iff.
Qed.

Lemma falsy_hash (v : value) (k : hkey) :
  truthy v = false -> hash_key v = Ok k -> falsy_key k = true.
Proof.
  destruct v as [|[]|n|s|l|d]; cbn; try discriminate; intros Ht [= <-]; cbn.
  - reflexivity.
  - reflexivity.
  - now apply negb_false_iff.
  - now apply negb_false_iff.
Qed.

Lemma build_loop_outcomes (urls : list (string * string)) :
  forall (mapping : gmap hkey string) (w : W) (symbols : list string),
    (forall k symbol, mapping !! k = Some symbol ->
       In symbol symbols /\ falsy_key k = false) ->
    match fst (build_chain_id_symbol_map_loop http_get_json urls mapping w) with
    | Ok mapping' =>
        forall k symbol, mapping' !! k = Some symbol ->
          (In symbol symbols \/ In symbol (map fst urls)) /\ falsy_key k = false
    | Raise msg =>
        exists v, truthy v = true /\ hashable v = false
                  /\ msg = "unhashable type: '" +:+ type_name v +:+ "'"
    | Diverge => False
    end.
Proof.
  induction urls as [|[symbol base] rest IH]; intros mapping w symbols Hinv.
  - cbn. intros k sym Hk. destruct (Hinv k sym Hk). auto.
  - cbn [build_chain_id_symbol_map_loop]. unfold mbind at 1.
    destruct (get_local_chain_id_ok (rstrip_slash base) w) as (v & w1 & -> & Hv).
    destruct (truthy v) eqn:Ht.
    + unfold mbind, lift. destruct (hashable v) eqn:Hh.
      * destruct (hash_key_ok v Hh) as [k Hk]. rewrite Hk.
        assert (Hinv' : forall k0 sym0, <[k := symbol]> mapping !! k0 = Some sym0 ->
                  In sym0 (symbol :: symbols) /\ falsy_key k0 = false).
        { intros k0 sym0. rewrite lookup_insert. case_decide as Hd.
          - intros [= <-]. split; [now left|]. subst k0.
            eapply truthy_hash; eassumption.
          - intros Hl. destruct (Hinv k0 sym0 Hl). split; [now right|assumption]. }
        specialize (IH (<[k := symbol]> mapping) w1 (symbol :: symbols) Hinv').
        revert IH.
        destruct (fst (build_chain_id_symbol_map_loop http_get_json rest
                         (<[k := symbol]> mapping) w1)) as [m'|msg|]; intros IH.
        -- intros k' sym Hk'. cbn.
           destruct (IH k' sym Hk') as [[[<-|Hin]|Hin] Hf]; auto.
        -- exact IH.
        -- exact IH.
      * rewrite (hash_key_bad v Hh). cbn. exists v. repeat split; assumption.
    + specialize (IH mapping w1 symbols Hinv). revert IH.
      destruct (fst (build_chain_id_symbol_map_loop http_get_json rest mapping w1))
        as [m'|msg|]; intros IH.
      * intros k' sym Hk'. destruct (IH k' sym Hk') as [[Hin|Hin] Hf]; cbn; auto.
      * exact IH.
      * exact IH.
Qed.

(** X6. [build_chain_id_symbol_map] either returns a map whose values are
    configured symbols and whose keys are identities that are truthy (so
    None, the empty string and 0 are never keys), or raises because some
    endpoint reported an unhashable identity; it fails in no other way. *)
Theorem build_chain_id_symbol_map_outcomes (urls : list (string * string)) (w : W) :
  match fst (build_chain_id_symbol_map http_get_json urls w) with
  | Ok mapping =>
      forall k symbol, mapping !! k = Some symbol ->
        In symbol (map fst urls) /\ falsy_key k = false
  | Raise msg =>
      exists v, truthy v = true /\ hashable v = false
                /\ msg = "unhashable type: '" +:+ type_name v +:+ "'"
  | Diverge => False
  end.
Proof.
  unfold build_chain_id_symbol_map.
  pose proof (build_loop_outcomes urls ∅ w []) as H.
  destruct (fst (build_chain_id_symbol_map_loop http_get_json urls ∅ w)) as [m|msg|].
  - intros k sym Hk. destruct (H (fun k0 s0 => ltac:(now rewrite lookup_empty)) k sym Hk)
      as [[[]|Hin] Hf]. auto.
  - apply H. intros k0 s0. now rewrite lookup_empty.
  - apply H. intros k0 s0. now rewrite lookup_empty.
Qed.

(** X7. With the map built by [build_chain_id_symbol_map], the key of a
    row that is not skipped is the configured symbol of its counterparty
    chain id if the map has one, else the chain id itself, and "UNKNOWN"
    when the chain id is absent or empty. *)
Theorem counterparty_key_priority (urls : list (string * string)) (w w' : W)
    (mapping : gmap hkey string) (r : dict) (c : cand) :
  build_chain_id_symbol_map http_get_json urls w = (Ok mapping, w') ->
  row_candidate mapping r = Ok (Some c) ->
  exists k : hkey,
    hash_key (dict_get r "counterparty_chain_id") = Ok k
    /\ match mapping !! k with
       | Some symbol => cp_key c = KStr symbol /\ In symbol (map fst urls)
       | None =>
           cp_key c = if truthy (dict_get r "counterparty_chain_id")
                      then k else KStr "UNKNOWN"
       end
    /\ (truthy (dict_get r "counterparty_chain_id") = false ->
        cp_key c = KStr "UNKNOWN").
Proof.
  intros Hb Hr.
  pose proof (build_loop_outcomes urls ∅ w []) as Hinv.
  unfold build_chain_id_symbol_map in Hb. rewrite Hb in Hinv. cbn [fst] in Hinv.
  specialize (Hinv (fun k0 s0 => ltac:(now rewrite lookup_empty))).
  unfold row_candidate in Hr.
  destruct (truthy (dict_get r "error")); [discriminate Hr|].
  destruct (negb (value_is_str (dict_get r "port_id") "transfer")); [discriminate Hr|].
  destruct (hash_key (dict_get r "counterparty_chain_id")) as [k| |] eqn:Hk;
    cbn [obind] in Hr; try discriminate Hr.
  exists k. split; [reflexivity|].
  destruct (mapping !! k) as [symbol|] eqn:Hm.
  - cbn [obind] in Hr.
    destruct (normalize_state (dict_get r "state")) as [st| |]; cbn [obind] in Hr;
      try discriminate Hr.
    injection Hr as <-. cbn [cp_key].
    destruct (Hinv k symbol Hm) as [[[]|Hin] Hf].
    repeat split; [exact Hin|].
    intros Ht. rewrite (falsy_hash _ _ Ht Hk) in Hf. discriminate Hf.
  - unfold py_or in Hr.
    destruct (truthy (dict_get r "counterparty_chain_id")) eqn:Ht.
    + rewrite Hk in Hr. cbn [obind] in Hr.
      destruct (normalize_state (dict_get r "state")) as [st| |]; cbn [obind] in Hr;
        try discriminate Hr.
      injection Hr as <-. cbn [cp_key]. split; [reflexivity|discriminate].
    + cbn [hash_key obind] in Hr.
      destruct (normalize_state (dict_get r "state")) as [st| |]; cbn [obind] in Hr;
        try discriminate Hr.
      injection Hr as <-. cbn [cp_key]. split; reflexivity.
Qed.

(** *** Exceptions of the aggregation loop *)

Lemma aggregate_rows_raise (chain_id_to_symbol : gmap hkey string)
    (rows_before : list dict) (r : dict) (rows_after : list dict) (msg : string) :
  forall local_map local_map',
    aggregate_rows chain_id_to_symbol local_map rows_before = Ok local_map' ->
    row_candidate chain_id_to_symbol r = Raise msg ->
    aggregate_rows chain_id_to_symbol local_map (rows_before ++ r :: rows_after)
    = Raise msg.
Proof.
  induction rows_before as [|r0 rows_before IH]; intros local_map local_map' Hb Hr.
  - cbn. unfold aggregate_row. now rewrite Hr.
  - cbn [app aggregate_rows] in *.
    destruct (aggregate_row chain_id_to_symbol local_map r0) as [lm1| |];
      cbn [obind] in *; try discriminate Hb.
    now apply (IH lm1 local_map').
Qed.

(** X8. An exception raised while the rows of an endpoint are aggregated is
    not caught by the endpoint's [try]: the whole run raises it, and no
    result is returned, not even for the endpoints already processed. *)
Theorem aggregation_error_aborts_run (fuel : nat) (chain_id_to_symbol : gmap hkey string)
    (result : gmap string (gmap hkey dict)) (s base : string)
    (rest : list (string * string)) (w w' : W)
    (rows_before : list dict) (r : dict) (rows_after : list dict)
    (local_map' : gmap hkey dict) (msg : string) :
  map_channels http_get_json fuel (rstrip_slash base) "transfer" None 200 0 w
  = (Ok (rows_before ++ r :: rows_after), w') ->
  aggregate_rows chain_id_to_symbol (default ∅ (result !! s)) rows_before
  = Ok local_map' ->
  row_candidate chain_id_to_symbol r = Raise msg ->
  aggregate_loop http_get_json fuel chain_id_to_symbol ((s, base) :: rest) result w
  = (Raise msg, w').
Proof.
  intros Hm Hb Hr.
  cbn [aggregate_loop]. unfold mbind, aggregate_endpoint. rewrite Hm.
  now rewrite (aggregate_rows_raise _ _ _ _ _ _ _ Hb Hr).
Qed.

(** *** Every endpoint has an entry *)

Lemma aggregate_endpoint_sets (fuel : nat) (chain_id_to_symbol : gmap hkey string)
    (result result' : gmap string (gmap hkey dict)) (s base : string) (w w' : W) :
  aggregate_endpoint http_get_json fuel chain_id_to_symbol result (s, base) w
  = (Ok result', w') ->
  exists local_map, result' = <[s := local_map]> result.
Proof.
  unfold aggregate_endpoint. intros H.
  destruct (map_channels _ _ _ _ _ _ _ w) as [[rows|e|] w1]; try discriminate H.
  - destruct (aggregate_rows _ _ rows) as [lm'| |]; cbn [obind] in H; try discriminate H.
    injection H as <- <-. eauto.
  - injection H as <- <-. eauto.
Qed.

Lemma aggregate_loop_covers (fuel : nat) (chain_id_to_symbol : gmap hkey string)
    (urls : list (string * string)) :
  forall (result result' : gmap string (gmap hkey dict)) (w w' : W),
    aggregate_loop http_get_json fuel chain_id_to_symbol urls result w = (Ok result', w') ->
    forall s, is_Some (result' !! s) <-> In s (map fst urls) \/ is_Some (result !! s).
Proof.
  induction urls as [|[s0 base] rest IH]; intros result result' w w' H s.
  - cbn in H. injection H as <- <-. cbn. tauto.
  - cbn [aggregate_loop] in H. unfold mbind in H.
    destruct (aggregate_endpoint _ _ _ _ _ w) as [[r1| |] w1] eqn:E; try discriminate H.
    apply aggregate_endpoint_sets in E as [lm ->].
    rewrite (IH _ _ _ _ H s). cbn [map fst In].
    rewrite lookup_insert. case_decide as Hd.
    + subst s0. split; [intros _; now left; left|eauto].
    + split; [intros [?|?]; auto|intros [[?|?]|?]; auto; contradiction].
Qed.

(** X9. A completed aggregate has an entry for exactly the configured
    symbols: an endpoint without channels, or one whose fetch failed, is
    still present, and no other top-level key appears. *)
Theorem aggregate_covers_registry (fuel : nat) (urls : list (string * string))
    (w w' : W) (result : gmap string (gmap hkey dict)) :
  aggregate_all http_get_json fuel urls w = (Ok result, w') ->
  forall s, is_Some (result !! s) <-> In s (map fst urls).
Proof.
  unfold aggregate_all, mbind. intros H s.
  destruct (build_chain_id_symbol_map http_get_json urls w) as [[cmap| |] w1];
    try discriminate H.
  rewrite (aggregate_loop_covers _ _ _ _ _ _ _ H s).
  rewrite lookup_empty. split; [intros [?|[x Hx]]; [assumption|discriminate Hx]|auto].
Qed.

(** *** The channel loop never gives up on an object *)






Lemma record_error_object (out : list dict) (d : dict) (e : string) (w : W) :
  record_error out (VDict d) e w
  = (Ok (out ++ [[("channel_id", dict_get d "channel_id");
                  ("port_id", dict_get d "port_id");
                  ("error", VStr e)]]), w).
Proof. reflexivity. Qed.



(** X11. An entry of the channel list that is not an object raises in the
    [try] block and again in its [except] branch: the loop of
    [map_channels] raises, the rows collected so far are lost, and the
    endpoint ends up with the error stub. *)
Theorem non_object_channel_aborts_fetch (fuel : nat)
    (chain_id_to_symbol : gmap hkey string) (result : gmap string (gmap hkey dict))
    (s base : string) (before : list value) (ch : value) (after : list value)
    (out : list dict) (w0 wp w : W) :
  is_object ch = false ->
  paginate_channels http_get_json fuel (rstrip_slash base) 200 w0
  = (Ok (before ++ ch :: after), wp) ->
  map_channels_loop http_get_json (rstrip_slash base) "transfer" None 0 before [] wp
  = (Ok out, w) ->
  map_channels http_get_json fuel (rstrip_slash base) "transfer" None 200 0 w0
  = (Raise ("'" +:+ type_name ch +:+ "' object has no attribute 'get'"), w)
  /\ aggregate_endpoint http_get_json fuel chain_id_to_symbol result (s, base) w0
     = (Ok (<[s := <[KStr "__error__" :=
                       error_stub ("'" +:+ type_name ch
                                   +:+ "' object has no attribute 'get'")]>
                    (default ∅ (result !! s))]> result), w).
Proof.
  intros Hch Hp Hb.
  assert (Hm : map_channels http_get_json fuel (rstrip_slash base) "transfer" None 200 0 w0
               = (Raise ("'" +:+ type_name ch +:+ "' object has no attribute 'get'"), w)).
  { unfold map_channels, mbind. rewrite Hp.
    rewrite map_channels_loop_app. unfold mbind. rewrite Hb.
    cbn [map_channels_loop]. unfold mbind, map_channels_step, resolve_channel, mbind, lift,
      record_error, lift.
    destruct ch; try discriminate Hch; reflexivity. }
  split; [exact Hm|].
  unfold aggregate_endpoint. now rewrite Hm.
Qed.

(** X12. For a listed object that passes the filters, a failure of the
    detail request is recorded as a stub with the channel's ids and the
    message, and the rest of the list is processed after it; the same holds
    for any exception raised inside the [try] block. *)
Theorem channel_failure_recorded (base port_filter : string)
    (state_filter : option string) (delay_ms : Z) (d : dict) (w w' : W) (e : string) :
  (port_skipped port_filter (dict_get d "port_id") = false ->
   state_skipped state_filter (dict_get d "state") = false ->
   http_get_json (GetChannel base (dict_get d "channel_id") (dict_get d "port_id")) w
   = (Failure e, w') ->
   resolve_channel http_get_json base port_filter state_filter (VDict d) w
   = (Raise e, w'))
  /\ (resolve_channel http_get_json base port_filter state_filter (VDict d) w
      = (Raise e, w') ->
      forall (out : list dict) (rest : list value),
        map_channels_loop http_get_json base port_filter state_filter delay_ms
          (VDict d :: rest) out w
        = map_channels_loop http_get_json base port_filter state_filter delay_ms rest
            (out ++ [[("channel_id", dict_get d "channel_id");
                      ("port_id", dict_get d "port_id");
                      ("error", VStr e)]]) w').
Proof.
  split.
  - intros Hp Hs Hreq.
    unfold resolve_channel, mbind, lift, get_channel, call. cbn [py_get].
    now rewrite Hp, Hs, Hreq.
  - intros Hr out rest. cbn [map_channels_loop]. unfold mbind, map_channels_step.
    rewrite Hr. now rewrite record_error_object.
Qed.

(** *** The filters *)

Lemma resolve_channel_filtered (base port_filter : string)
    (state_filter : option string) (ch : value) (w w' : W) (info : dict) :
  resolve_channel http_get_json base port_filter state_filter ch w = (Ok (Some info), w') ->
  port_skipped port_filter (dict_get info "port_id") = false
  /\ state_skipped state_filter (dict_get info "state") = false.
Proof.
  intros H. destruct ch as [| | | | |d]; try discriminate H.
  unfold resolve_channel, mbind, lift, mret, get_channel, get_connection,
    get_client_state, call in H.
  cbn [py_get] in H.
  destruct (port_skipped port_filter (dict_get d "port_id")) eqn:Hp; [discriminate H|].
  destruct (state_skipped state_filter (dict_get d "state")) eqn:Hs; [discriminate H|].
  repeat match type of H with
         | context [if ?b then _ else _] => destruct b
         | context [match ?x with _ => _ end] => destruct x
         end; try discriminate H.
  all: injection H as <- _; split; assumption.
Qed.

Lemma map_channels_step_filtered (base port_filter : string)
    (state_filter : option string) (delay_ms : Z) (out : list dict) (ch : value)
    (w w' : W) (out' : list dict) :
  map_channels_step http_get_json base port_filter state_filter delay_ms out ch w
  = (Ok out', w') ->
  exists added : list dict,
    out' = out ++ added
    /\ forall r, In r added ->
         dict_has r "error" = true
         \/ (port_skipped port_filter (dict_get r "port_id") = false
             /\ state_skipped state_filter (dict_get r "state") = false).
Proof.
  unfold map_channels_step. intros H.
  destruct (resolve_channel http_get_json base port_filter state_filter ch w)
    as [[[info|]| |] w1] eqn:E.
  - apply resolve_channel_filtered in E.
    destruct (delay_ms =? 0).
    + injection H as <- <-. exists [info]. split; [reflexivity|].
      intros r [<-|[]]. now right.
    + destruct (py_sleep delay_ms) as [[]|e|]; try discriminate H.
      * injection H as <- <-. exists [info]. split; [reflexivity|].
        intros r [<-|[]]. now right.
      * apply record_error_rows in H as (stub & -> & Hstub).
        exists [info; stub]. split; [now rewrite <- app_assoc|].
        intros r [<-|[<-|[]]]; [now right|now left].
  - injection H as <- <-. exists []. split; [now rewrite app_nil_r|]. intros r [].
  - apply record_error_rows in H as (stub & -> & Hstub).
    exists [stub]. split; [reflexivity|]. intros r [<-|[]]. now left.
  - discriminate H.
Qed.

Lemma map_channels_loop_filtered (base port_filter : string)
    (state_filter : option string) (delay_ms : Z) (all_channels : list value) :
  forall (out : list dict) (w w' : W) (rows : list dict),
    map_channels_loop http_get_json base port_filter state_filter delay_ms
      all_channels out w = (Ok rows, w') ->
    exists added : list dict,
      rows = out ++ added
      /\ forall r, In r added ->
           dict_has r "error" = true
           \/ (port_skipped port_filter (dict_get r "port_id") = false
               /\ state_skipped state_filter (dict_get r "state") = false).
Proof.
  induction all_channels as [|ch rest IH]; intros out w w' rows H.
  - cbn in H. injection H as <- <-. exists []. split; [now rewrite app_nil_r|].
    intros r [].
  - cbn [map_channels_loop] in H. unfold mbind in H.
    destruct (map_channels_step http_get_json base port_filter state_filter
                delay_ms out ch w) as [[out1| |] w1] eqn:E; try discriminate H.
    apply map_channels_step_filtered in E as (added1 & -> & H1).
    apply IH in H as (added2 & -> & H2).
    exists (added1 ++ added2). split; [now rewrite app_assoc|].
    intros r Hin. apply in_app_or in Hin as [Hin|Hin]; auto.
Qed.

(** X13. Every row that [map_channels] returns without an error matches the
    filters it was called with: its port is the port filter, unless that is
    empty, and its state is the state filter, unless that is absent or
    empty. *)
Theorem map_channels_rows_match_filters (fuel : nat) (base port_filter : string)
    (state_filter : option string) (limit delay_ms : Z) (w w' : W) (rows : list dict) :
  map_channels http_get_json fuel base port_filter state_filter limit delay_ms w
  = (Ok rows, w') ->
  forall r, In r rows -> dict_has r "error" = false ->
    port_skipped port_filter (dict_get r "port_id") = false
    /\ state_skipped state_filter (dict_get r "state") = false.
Proof.
  unfold map_channels, mbind. intros H.
  destruct (paginate_channels http_get_json fuel base limit w) as [[chs| |] w1];
    try discriminate H.
  apply map_channels_loop_filtered in H as (added & -> & Hadded).
  intros r Hin Herr. cbn in Hin.
  destruct (Hadded r Hin) as [He|Hf]; [congruence|exact Hf].
Qed.

(** *** A list request that fails *)

Lemma paginate_loop_fails (base : string) (limit : Z) (key : value)
    (w w' : W) (n : nat) (e : string) :
  fetch_fails http_get_json base limit key w n e w' ->
  forall (fuel : nat) (channels : list value),
    (n < fuel)%nat ->
    paginate_loop http_get_json fuel base limit channels key w = (Raise e, w').
Proof.
  induction 1 as [key w e w' Hreq
                 |key w data items nk w' n e w'' Hreq Hi Hc Hnk Hf IH];
    intros fuel channels Hfuel.
  - destruct fuel as [|fuel]; [lia|].
    cbn [paginate_loop]. unfold mbind, call. now rewrite Hreq.
  - destruct fuel as [|fuel]; [lia|].
    rewrite (paginate_loop_step _ _ _ _ _ _ _ _ _ _ _ Hreq Hi Hc), Hnk.
    cbn [negb]. apply IH. lia.
Qed.

(** X14. When a list request fails, on the first page or after pages that
    carried a cursor, [paginate_channels] raises that failure and returns none
    of the pages already fetched; [map_channels] raises it too, and the
    endpoint is recorded with the error stub holding the message. *)
Theorem list_failure_discards_pages (fuel : nat) (chain_id_to_symbol : gmap hkey string)
    (result : gmap string (gmap hkey dict)) (s base : string)
    (w w' : W) (n : nat) (e : string) :
  fetch_fails http_get_json (rstrip_slash base) 200 VNone w n e w' ->
  (n < fuel)%nat ->
  paginate_channels http_get_json fuel (rstrip_slash base) 200 w = (Raise e, w')
  /\ map_channels http_get_json fuel (rstrip_slash base) "transfer" None 200 0 w
     = (Raise e, w')
  /\ aggregate_endpoint http_get_json fuel chain_id_to_symbol result (s, base) w
     = (Ok (<[s := <[KStr "__error__" := error_stub e]> (default ∅ (result !! s))]>
              result), w').
Proof.
  intros Hf Hfuel.
  assert (Hp : paginate_channels http_get_json fuel (rstrip_slash base) 200 w
               = (Raise e, w')).
  { unfold paginate_channels. now apply (paginate_loop_fails _ _ _ _ _ _ _ Hf). }
  assert (Hm : map_channels http_get_json fuel (rstrip_slash base) "transfer" None 200 0 w
               = (Raise e, w')).
  { unfold map_channels, mbind. now rewrite Hp. }
  repeat split; [exact Hp|exact Hm|].
  unfold aggregate_endpoint. now rewrite Hm.
Qed.

(** *** The client state payload *)

(** X15. On a payload whose [client_state] is an object (or absent),
    [extract_chain_id_from_client_state] does not raise: a non-empty direct
    [chain_id] wins over a wrapped one, the [chain_id] under [value] is used
    when the direct one is missing and [value] is an object, and the result
    is None otherwise. A [client_state] that is truthy but not an object
    raises. *)
Theorem extract_chain_id_forms (obj : dict) :
  (forall cs : dict,
      py_or (dict_get obj "client_state") (VDict []) = VDict cs ->
      (truthy (dict_get cs "chain_id") = true ->
       extract_chain_id_from_client_state (VDict obj) = Ok (dict_get cs "chain_id"))
      /\ (truthy (dict_get cs "chain_id") = false ->
          forall v : dict, dict_get cs "value" = VDict v ->
          extract_chain_id_from_client_state (VDict obj) = Ok (dict_get v "chain_id"))
      /\ (truthy (dict_get cs "chain_id") = false ->
          is_object (dict_get cs "value") = false ->
          extract_chain_id_from_client_state (VDict obj) = Ok VNone))
  /\ (truthy (dict_get obj "client_state") = true ->
      is_object (dict_get obj "client_state") = false ->
      extract_chain_id_from_client_state (VDict obj)
      = Raise ("'" +:+ type_name (dict_get obj "client_state")
               +:+ "' object has no attribute 'get'")).
Proof.
  split.
  - intros cs Hcs. unfold extract_chain_id_from_client_state.
    cbn [py_get obind]. rewrite Hcs. cbn [py_get obind].
    repeat split.
    + intros Ht. now rewrite Ht.
    + intros Ht v Hv. now rewrite Ht, Hv.
    + intros Ht Hv. rewrite Ht. destruct (dict_get cs "value"); try reflexivity.
      discriminate Hv.
  - intros Ht Ho. unfold extract_chain_id_from_client_state.
    cbn [py_get obind]. unfold py_or. rewrite Ht.
    destruct (dict_get obj "client_state"); try discriminate Ho; reflexivity.
Qed.

End PipelineMore.

(** ** Decimal channel numbers *)







(** ** URLs *)

Lemma rstrip_slash_idem (s : string) : rstrip_slash (rstrip_slash s) = rstrip_slash s.
Proof.
  induction s as [|a s IH]; [reflexivity|].
  cbn [rstrip_slash]. destruct (rstrip_slash s) as [|b r] eqn:E.
  - destruct (Ascii.eqb a "/") eqn:Ha; [reflexivity|].
    cbn [rstrip_slash]. now rewrite Ha.
  - cbn [rstrip_slash] in *. rewrite IH. reflexivity.
Qed.

Lemma rstrip_slash_trailing (s : string) : rstrip_slash (s +:+ "/") = rstrip_slash s.
Proof.
  induction s as [|a s IH]; [reflexivity|].
  change (String a s +:+ "/") with (String a (s +:+ "/")).
  cbn [rstrip_slash]. now rewrite IH.
Qed.

(** X17. [urljoin] ignores slashes at the end of the base and at the start
    of the path: one more of either gives the same URL, and a base that was
    stripped beforehand, as [aggregate_all] does, gives the same URL as the
    unstripped one. *)
Theorem urljoin_slashes (base path : string) (query : list (string * string)) :
  urljoin (base +:+ "/") path query = urljoin base path query
  /\ urljoin base ("/" +:+ path) query = urljoin base path query
  /\ urljoin (rstrip_slash base) path query = urljoin base path query.
Proof.
  unfold urljoin. rewrite rstrip_slash_trailing, rstrip_slash_idem.
  repeat split.
Qed.

Lemma unquote_char (a : ascii) (s : string) :
  unquote_plus (quote_char a +:+ s) = String a <$> unquote_plus s.
Proof.
  destruct a as [[] [] [] [] [] [] [] []]; reflexivity.
Qed.

Lemma unquote_quote (s : string) : unquote_plus (quote_plus s) = Some s.
Proof.
  induction s as [|a s IH]; [reflexivity|].
  cbn [quote_plus]. rewrite unquote_char, IH. reflexivity.
Qed.

Lemma quote_char_safe (a : ascii) : string_forallb url_char (quote_char a) = true.
Proof.
  destruct a as [[] [] [] [] [] [] [] []]; reflexivity.
Qed.

Lemma string_forallb_app (p : ascii -> bool) (s t : string) :
  string_forallb p (s +:+ t) = string_forallb p s && string_forallb p t.
Proof.
  induction s as [|a s IH]; [reflexivity|].
  change (String a s +:+ t) with (String a (s +:+ t)).
  cbn [string_forallb]. rewrite IH. now rewrite andb_assoc.
Qed.

(** X18. [quote_plus] loses nothing and writes only unreserved characters,
    [%] and [+]: reading the quoted string back gives the original, two
    different strings are never quoted to the same text, and no [&], [=],
    [?], [/], [#] or blank occurs in the output. *)
Theorem quote_plus_faithful :
  (forall s, unquote_plus (quote_plus s) = Some s)
  /\ (forall s1 s2, quote_plus s1 = quote_plus s2 -> s1 = s2)
  /\ (forall s, string_forallb url_char (quote_plus s) = true).
Proof.
  repeat split.
  - apply unquote_quote.
  - intros s1 s2 H.
    assert (Some s1 = Some s2) as [= ->]; [|reflexivity].
    now rewrite <- (unquote_quote s1), <- (unquote_quote s2), H.
  - intros s. induction s as [|a s IH]; [reflexivity|].
    cbn [quote_plus]. rewrite string_forallb_app, quote_char_safe, IH. reflexivity.
Qed.


(** ** The table is aligned *)

Lemma string_length_app (s t : string) :
  String.length (s +:+ t) = (String.length s + String.length t)%nat.
Proof.
  induction s as [|a s IH]; [reflexivity|].
  change (String a s +:+ t) with (String a (s +:+ t)). cbn. now rewrite IH.
Qed.

Lemma string_mul_length (a : ascii) (n : nat) :
  String.length (string_mul (String a EmptyString) n) = n.
Proof.
  induction n as [|n IH]; [reflexivity|].
  cbn [string_mul]. rewrite string_length_app, IH. reflexivity.
Qed.

Lemma ljust_length (s : string) (width : nat) :
  (String.length s <= width)%nat -> String.length (ljust s width) = width.
Proof.
  intros H. unfold ljust. rewrite string_length_app, string_mul_length. lia.
Qed.

Lemma join_length (sep : string) (l : list string) :
  String.length (join sep l)
  = (sum_list (map String.length l) + String.length sep * (length l - 1))%nat.
Proof.
  induction l as [|x l IH]; [cbn; lia|].
  destruct l as [|y l]; [cbn; lia|].
  change (join sep (x :: y :: l)) with (x +:+ sep +:+ join sep (y :: l)).
  rewrite !string_length_app, IH. cbn [map sum_list length sum_list_with]. unfold id.
  replace (S (S (length l)) - 1)%nat with (S (S (length l) - 1)) by lia.
  rewrite Nat.mul_succ_r. lia.
Qed.

Section TableFacts.

Variable text_of : value -> string.

Lemma column_width_header (table : list (list value)) (i : nat) (h : string) :
  (String.length h <= column_width text_of table i h)%nat.
Proof.
  unfold column_width. apply max_list_elem_of_le. cbn [map str].
  apply list_elem_of_here.
Qed.

Lemma column_width_cell (table : list (list value)) (i : nat) (h : string)
    (row : list value) :
  In row table ->
  (String.length (str text_of (nth i row VNone)) <= column_width text_of table i h)%nat.
Proof.
  intros Hin. unfold column_width. apply max_list_elem_of_le.
  cbn [map]. apply list_elem_of_further, list_elem_of_In.
  apply in_map with (f := fun x => String.length (str text_of x)).
  now apply in_map with (f := fun row => nth i row VNone).
Qed.

Lemma table_widths_lookup (table : list (list value)) (i : nat) :
  table_widths text_of table !! i = column_width text_of table i <$> headers !! i.
Proof. unfold table_widths. apply list_lookup_imap. Qed.

(** A row with a cell per column, no cell wider than its column: the cells
    of the line have the widths of the columns. *)
Lemma fmt_row_cells (widths : list nat) (row : list value) :
  length row = length widths ->
  (forall i x w, row !! i = Some x -> widths !! i = Some w ->
                 (String.length (str text_of x) <= w)%nat) ->
  map String.length (imap (fun i val => ljust (str text_of val) (nth i widths O)) row)
  = widths.
Proof.
  intros Hlen Hle. apply list_eq. intros i.
  change (map String.length) with (fmap (M := list) String.length).
  rewrite list_lookup_fmap, list_lookup_imap.
  destruct (row !! i) as [x|] eqn:Hx.
  - destruct (widths !! i) as [w|] eqn:Hw.
    + cbn. f_equal. rewrite (nth_lookup_Some _ _ _ _ Hw).
      apply ljust_length. now apply (Hle i).
    + apply lookup_lt_Some in Hx. apply lookup_ge_None in Hw. lia.
  - cbn. symmetry. apply lookup_ge_None. apply lookup_ge_None in Hx. lia.
Qed.

Lemma table_row_cells (r : dict) : length (table_row r) = 7%nat.
Proof. reflexivity. Qed.

Lemma table_widths_length (table : list (list value)) :
  length (table_widths text_of table) = 7%nat.
Proof. unfold table_widths. now rewrite length_imap. Qed.

(** Each of the three kinds of line is made of cells as wide as the
    columns. *)
Lemma header_cells (table : list (list value)) :
  map String.length
    (imap (fun i val => ljust (str text_of val) (nth i (table_widths text_of table) O))
       (map VStr headers))
  = table_widths text_of table.
Proof.
  apply fmt_row_cells.
  - now rewrite table_widths_length.
  - intros i x w Hx Hw. rewrite table_widths_lookup in Hw.
    change (map VStr headers) with (VStr <$> headers) in Hx.
    rewrite list_lookup_fmap in Hx.
    destruct (headers !! i) as [h|]; [|discriminate].
    cbn in Hx, Hw. injection Hx as <-. injection Hw as <-.
    apply column_width_header.
Qed.

Lemma rule_cells (widths : list nat) :
  map String.length
    (imap (fun i val => ljust (str text_of val) (nth i widths O))
       (map (fun w => VStr (string_mul "-" w)) widths))
  = widths.
Proof.
  apply fmt_row_cells.
  - now rewrite length_map.
  - intros i x w Hx Hw.
    change (map ?f widths) with (f <$> widths) in Hx.
    rewrite list_lookup_fmap, Hw in Hx. cbn in Hx. injection Hx as <-.
    cbn [str]. now rewrite string_mul_length.
Qed.

Lemma row_cells (table : list (list value)) (row : list value) :
  In row table -> length row = 7%nat ->
  map String.length
    (imap (fun i val => ljust (str text_of val) (nth i (table_widths text_of table) O)) row)
  = table_widths text_of table.
Proof.
  intros Hin Hlen. apply fmt_row_cells.
  - now rewrite table_widths_length.
  - intros i x w Hx Hw. rewrite table_widths_lookup in Hw.
    destruct (headers !! i) as [h|]; [|discriminate].
    cbn in Hw. injection Hw as <-.
    rewrite <- (nth_lookup_Some _ _ VNone _ Hx).
    now apply column_width_cell.
Qed.

(** X19. The table [format_table] prints is aligned, whatever the rows hold:
    it has a header line, a rule and one line per row; every line is made
    of seven cells joined by two blanks, the cells of a column being
    equally wide in all lines and at least as wide as the column's header;
    so all lines have the same length, and the text has no line after the
    last row. *)
Theorem format_table_aligned (rows : list dict) :
  exists widths : list nat,
    Forall2 (fun h w => (String.length h <= w)%nat) headers widths
    /\ length (format_table_lines text_of rows) = (2 + length rows)%nat
    /\ Forall (fun line => exists cells : list string,
                 line = join "  " cells /\ map String.length cells = widths)
         (format_table_lines text_of rows)
    /\ Forall (fun line => String.length line = (sum_list widths + 12)%nat)
         (format_table_lines text_of rows)
    /\ String.length (format_table text_of rows)
       = ((2 + length rows) * (sum_list widths + 13) - 1)%nat.
Proof.
  set (table := map table_row rows).
  set (widths := table_widths text_of table).
  assert (Hcells : Forall (fun line => exists cells : list string,
                     line = join "  " cells /\ map String.length cells = widths)
                     (format_table_lines text_of rows)).
  { unfold format_table_lines. fold table. fold widths.
    apply Forall_cons. split; [eexists; split; [reflexivity|apply header_cells]|].
    apply Forall_cons. split; [eexists; split; [reflexivity|apply rule_cells]|].
    apply List.Forall_forall. intros line Hin.
    apply in_map_iff in Hin as (row & <- & Hin).
    eexists. split; [reflexivity|]. apply row_cells; [exact Hin|].
    unfold table in Hin. apply in_map_iff in Hin as (r & <- & _). reflexivity. }
  assert (Hlines : length (format_table_lines text_of rows) = (2 + length rows)%nat).
  { unfold format_table_lines. cbn [length]. now rewrite !length_map. }
  assert (Hwidth : Forall (fun line => String.length line = (sum_list widths + 12)%nat)
                     (format_table_lines text_of rows)).
  { eapply Forall_impl; [exact Hcells|].
    intros line (cells & -> & Hc). rewrite join_length, Hc.
    assert (length cells = 7%nat) as ->.
    { rewrite <- (length_map String.length), Hc. apply table_widths_length. }
    cbn. lia. }
  exists widths. split; [|split; [exact Hlines|split; [exact Hcells|split; [exact Hwidth|]]]].
  - apply Forall2_same_length_lookup. split.
    + unfold widths. now rewrite table_widths_length.
    + intros i h w Hh Hw. unfold widths in Hw.
      rewrite table_widths_lookup, Hh in Hw. cbn in Hw. injection Hw as <-.
      apply column_width_header.
  - unfold format_table. rewrite join_length, Hlines.
    change (map String.length ?l) with (String.length <$> l).
    rewrite (sum_list_fmap_same (sum_list widths + 12) _ String.length Hwidth), Hlines.
    change (String.length newline) with 1%nat. nia.
Qed.

End TableFacts.

(** ** A list that never ends *)

Section PaginationFacts.

Context {W : Type}.
Variable http_get_json : request -> W -> reply * W.

Lemma paginate_loop_endless (base : string) (limit : Z) :
  (forall (key : option value) (w : W),
      exists (data : value) (items : list value) (next_key : value) (w' : W),
        http_get_json (ListChannels base limit key) w = (Json data, w')
        /\ page_items data = Ok items
        /\ page_cursor data = Ok next_key
        /\ truthy next_key = true) ->
  forall (fuel : nat) (channels : list value) (key : value) (w : W),
    fst (paginate_loop http_get_json fuel base limit channels key w) = Diverge.
Proof.
  intros Hserver fuel. induction fuel as [|fuel IH]; intros channels key w.
  - reflexivity.
  - destruct (Hserver (cursor_param key) w) as (data & items & nk & w' & Hreq & Hi & Hc & Hnk).
    rewrite (paginate_loop_step http_get_json fuel base limit channels key w w'
               data items nk Hreq Hi Hc), Hnk.
    cbn [negb]. apply IH.
Qed.

(** X20. Against an endpoint that returns a cursor with every page, the
    paginator has no way out: however many requests it is allowed, it has
    neither returned nor raised, and so have [map_channels] and the
    aggregation of that endpoint, whose [try] does not bound the loop. *)
Theorem endless_cursor_never_returns (base : string)
    (chain_id_to_symbol : gmap hkey string) (result : gmap string (gmap hkey dict))
    (s : string) :
  (forall (key : option value) (w : W),
      exists (data : value) (items : list value) (next_key : value) (w' : W),
        http_get_json (ListChannels (rstrip_slash base) 200 key) w = (Json data, w')
        /\ page_items data = Ok items
        /\ page_cursor data = Ok next_key
        /\ truthy next_key = true) ->
  forall (fuel : nat) (w : W),
    fst (paginate_channels http_get_json fuel (rstrip_slash base) 200 w) = Diverge
    /\ fst (map_channels http_get_json fuel (rstrip_slash base) "transfer" None 200 0 w)
       = Diverge
    /\ fst (aggregate_endpoint http_get_json fuel chain_id_to_symbol result (s, base) w)
       = Diverge.
Proof.
  intros Hserver fuel w.
  pose proof (paginate_loop_endless _ _ Hserver fuel [] VNone w) as Hp.
  assert (Hm : fst (map_channels http_get_json fuel (rstrip_slash base) "transfer"
                      None 200 0 w) = Diverge).
  { unfold map_channels, mbind. fold (paginate_channels http_get_json fuel (rstrip_slash base) 200 w).
    unfold paginate_channels.
    destruct (paginate_loop http_get_json fuel (rstrip_slash base) 200 [] VNone w)
      as [[x| |] w1]; cbn in Hp; try discriminate. reflexivity. }
  split; [exact Hp|split; [exact Hm|]].
  unfold aggregate_endpoint.
  destruct (map_channels http_get_json fuel (rstrip_slash base) "transfer" None 200 0 w)
    as [[x| |] w1]; cbn in Hm; try discriminate. reflexivity.
Qed.

End PaginationFacts.

(** ** Concrete runs *)

Example normalize_state_table :
  normalize_state (VStr "STATE_OPEN") = Ok (Some "OPEN")
  /\ normalize_state (VStr "OPEN") = Ok (Some "OPEN")
  /\ str_or None "UNKNOWN" = "UNKNOWN".
Proof. repeat split; reflexivity. Qed.

Example demo_aggregate :
  aggregate_all Demo.http 1 Demo.urls tt
  = (Ok {["A" := {[KStr "OSMO" := candidate (Some (PInt 12)) (Some (PInt 99)) "OPEN"]};
          "OSMO" := ∅]}, tt).
Proof. reflexivity. Qed.

(** Further inputs of the channel-id normalization: signs, blanks,
    underscores, and identifiers that are not strings. *)
Example parse_channel_number_more :
  parse_channel_number (VStr "channel--5") = Some (PInt (-5))
  /\ parse_channel_number (VStr " 1_000 ") = Some (PInt 1000)
  /\ parse_channel_number (VStr "channel-") = None
  /\ parse_channel_number (VStr "1__0") = None
  /\ parse_channel_number (VInt 0) = None
  /\ parse_channel_number (VBool true) = Some (PBool true).
Proof. repeat split; reflexivity. Qed.

Lemma open_wins_witness :
  store {[KStr "OSMO" := candidate (Some (PInt 3)) None "INIT"]}
        (Cand (KStr "OSMO") (Some (PInt 8)) (Some (PInt 1)) "OPEN")
  = <[KStr "OSMO" := candidate (Some (PInt 8)) (Some (PInt 1)) "OPEN"]>
      {[KStr "OSMO" := candidate (Some (PInt 3)) None "INIT"]}
  /\ store {[KStr "OSMO" := candidate (Some (PInt 8)) None "OPEN"]}
           (Cand (KStr "OSMO") (Some (PInt 3)) (Some (PInt 1)) "INIT")
     = {[KStr "OSMO" := candidate (Some (PInt 8)) None "OPEN"]}.
Proof.
  split.
  - apply (open_wins_never_downgraded
             {[KStr "OSMO" := candidate (Some (PInt 3)) None "INIT"]}
             (Cand (KStr "OSMO") (Some (PInt 8)) (Some (PInt 1)) "OPEN")
             (candidate (Some (PInt 3)) None "INIT")).
    + reflexivity.
    + reflexivity.
    + reflexivity.
  - apply (open_wins_never_downgraded
             {[KStr "OSMO" := candidate (Some (PInt 8)) None "OPEN"]}
             (Cand (KStr "OSMO") (Some (PInt 3)) (Some (PInt 1)) "INIT")
             (candidate (Some (PInt 8)) None "OPEN")).
    + reflexivity.
    + reflexivity.
    + cbn. discriminate.
Defined.

Lemma exact_tie_witness :
  store {[KStr "OSMO" := candidate (Some (PInt 5)) (Some (PInt 1)) "INIT"]}
        (Cand (KStr "OSMO") (Some (PInt 5)) (Some (PInt 2)) "TRYOPEN")
  = {[KStr "OSMO" := candidate (Some (PInt 5)) (Some (PInt 1)) "INIT"]}.
Proof.
  apply (exact_tie_keeps_existing
           {[KStr "OSMO" := candidate (Some (PInt 5)) (Some (PInt 1)) "INIT"]}
           (Cand (KStr "OSMO") (Some (PInt 5)) (Some (PInt 2)) "TRYOPEN")
           (candidate (Some (PInt 5)) (Some (PInt 1)) "INIT") 5 (PInt 5)).
  - reflexivity.
  - reflexivity.
  - reflexivity.
  - reflexivity.
  - reflexivity.
Defined.

(** The two scenarios of the specification: INIT/10 against OPEN/99, and
    OPEN/5 against OPEN/3, in both orders. *)
Lemma order_independent_witness :
  aggregate_rows ∅ ∅ [Demo.row "channel-99" "channel-1" "foo-7" "STATE_OPEN";
                      Demo.row "channel-10" "channel-2" "foo-7" "STATE_INIT"]
  = aggregate_rows ∅ ∅ [Demo.row "channel-10" "channel-2" "foo-7" "STATE_INIT";
                        Demo.row "channel-99" "channel-1" "foo-7" "STATE_OPEN"]
  /\ store (store ∅ (Cand (KStr "foo-7") (Some (PInt 5)) None "OPEN"))
           (Cand (KStr "foo-7") (Some (PInt 3)) None "OPEN")
     = store (store ∅ (Cand (KStr "foo-7") (Some (PInt 3)) None "OPEN"))
             (Cand (KStr "foo-7") (Some (PInt 5)) None "OPEN").
Proof.
  split.
  - apply (proj2 aggregation_order_independent_without_ties ∅ ∅
             [Demo.row "channel-10" "channel-2" "foo-7" "STATE_INIT";
              Demo.row "channel-99" "channel-1" "foo-7" "STATE_OPEN"]
             [Demo.row "channel-99" "channel-1" "foo-7" "STATE_OPEN";
              Demo.row "channel-10" "channel-2" "foo-7" "STATE_INIT"]
             [Cand (KStr "foo-7") (Some (PInt 10)) (Some (PInt 2)) "INIT";
              Cand (KStr "foo-7") (Some (PInt 99)) (Some (PInt 1)) "OPEN"]).
    + reflexivity.
    + reflexivity.
    + apply perm_swap.
  - apply (proj1 aggregation_order_independent_without_ties).
    reflexivity.
Defined.

(** On a tie the order decides: two OPEN channels to the same chain whose
    identifiers do not parse are stored last-write-wins. *)
Lemma order_matters_on_ties :
  aggregate_rows ∅ ∅ [Demo.row "channel-abc" "channel-1" "foo-7" "STATE_OPEN";
                      Demo.row "channel-xyz" "channel-2" "foo-7" "STATE_OPEN"]
  = Ok {[KStr "foo-7" := candidate None (Some (PInt 2)) "OPEN"]}
  /\ aggregate_rows ∅ ∅ [Demo.row "channel-xyz" "channel-2" "foo-7" "STATE_OPEN";
                         Demo.row "channel-abc" "channel-1" "foo-7" "STATE_OPEN"]
     = Ok {[KStr "foo-7" := candidate None (Some (PInt 1)) "OPEN"]}
  /\ candidate None (Some (PInt 2)) "OPEN" <> candidate None (Some (PInt 1)) "OPEN".
Proof.
  repeat split; try (reflexivity).
  discriminate.
Qed.

(** A three-page run of the scripted network, the second page repeating
    the cursor of the first; the response after the page without a cursor is
    left in the script. *)
Lemma paginate_three_pages_witness :
  paginate_channels Demo.scripted 3 "https://p.example" 200 Demo.three_pages
  = (Ok (concat Demo.three_page_items), [Demo.left_over])
  /\ fst (paginate_channels Demo.scripted 2 "https://p.example" 200 Demo.three_pages)
     = Diverge
  /\ length (concat Demo.three_page_items) = 3%nat.
Proof.
  destruct (paginate_channels_fetches_all Demo.scripted "https://p.example" 200
              Demo.three_pages [Demo.left_over] Demo.three_page_items)
    as (Hdone & Hshort & Hlen).
  - eapply fetches_more; [reflexivity|reflexivity|reflexivity|reflexivity|].
    eapply fetches_more; [reflexivity|reflexivity|reflexivity|reflexivity|].
    eapply fetches_last; reflexivity.
  - split; [|split].
    + apply Hdone. cbn. lia.
    + apply Hshort. cbn. lia.
    + exact Hlen.
Defined.

(** The resolver hands on the state as listed, prefix included. *)
Lemma resolver_keeps_state_prefix :
  map_channels Demo.http 1 "https://b.example" "transfer" None 200 0 tt
  = (Ok [Demo.row_b], tt)
  /\ dict_has Demo.row_b "error" = false
  /\ dict_get Demo.row_b "state" = VStr "STATE_OPEN".
Proof. repeat split; reflexivity. Qed.

Lemma resolved_rows_witness :
  exists (all_channels : list value) (w1 : unit),
    paginate_channels Demo.http 1 "https://b.example" 200 tt = (Ok all_channels, w1)
    /\ forall r, In r [Demo.row_b] -> dict_has r "error" = false ->
         exists d, In (VDict d) all_channels /\ raw_row d r.
Proof.
  apply (proj1 (resolved_rows_keep_raw_state Demo.http)
           1%nat "https://b.example" "transfer" None 200 0 tt tt).
  reflexivity.
Defined.


Example hopless_channel_aggregate :
  aggregate_all Demo.http 1 [("H", "https://h.example/")] tt = (Ok {["H" := ∅]}, tt).
Proof. reflexivity. Qed.




Example endpoint_failure_aggregate :
  aggregate_all Demo.http 1
    [("A", "https://a.example/"); ("DOWN", "https://down.example/");
     ("B", "https://b.example/")] tt
  = (Ok {["A" := {[KStr "osmosis-1" := candidate (Some (PInt 12)) (Some (PInt 99)) "OPEN"]};
          "DOWN" := {[KStr "__error__" :=
                        error_stub "<urlopen error [Errno 111] Connection refused>"]};
          "B" := {[KStr "foo-7" := candidate (Some (PInt 7)) (Some (PInt 1)) "OPEN"]}]}, tt).
Proof. reflexivity. Qed.

(** C3. The aggregator's test is [if r.get("error")], so a stub whose
    message is the empty string is not skipped: the channel of
    [https://e.example], whose detail request raises with an empty message,
    ends up in the aggregate under "UNKNOWN". *)
Theorem empty_error_message_aggregated :
  map_channels Demo.http 1 "https://e.example" "transfer" None 200 0 tt
  = (Ok [[("channel_id", VStr "channel-5"); ("port_id", VStr "transfer");
          ("error", VStr "")]], tt)
  /\ aggregate_all Demo.http 1 [("E", "https://e.example/")] tt
     = (Ok {["E" := {[KStr "UNKNOWN" := candidate (Some (PInt 5)) None "UNKNOWN"]}]}, tt).
Proof. split; reflexivity. Qed.

(** ** Concrete runs, further *)

(** Two channels to the same chain, INIT with source 3 and OPEN with source
    8: the OPEN one is kept. *)
Lemma best_candidate_witness :
  exists local_map : gmap hkey dict,
    aggregate_rows ∅ ∅ [Demo.row "channel-3" "channel-1" "foo-7" "STATE_INIT";
                        Demo.row "channel-8" "channel-2" "foo-7" "STATE_OPEN"]
    = Ok local_map
    /\ (forall k leaf, local_map !! k = Some leaf ->
          best_in [Cand (KStr "foo-7") (Some (PInt 3)) (Some (PInt 1)) "INIT";
                   Cand (KStr "foo-7") (Some (PInt 8)) (Some (PInt 2)) "OPEN"] k leaf)
    /\ (forall c,
          In c [Cand (KStr "foo-7") (Some (PInt 3)) (Some (PInt 1)) "INIT";
                Cand (KStr "foo-7") (Some (PInt 8)) (Some (PInt 2)) "OPEN"] ->
          is_Some (local_map !! cp_key c)).
Proof.
  apply (best_candidate_stored ∅
           [Demo.row "channel-3" "channel-1" "foo-7" "STATE_INIT";
            Demo.row "channel-8" "channel-2" "foo-7" "STATE_OPEN"]).
  reflexivity.
Defined.

Example best_candidate_run :
  aggregate_rows ∅ ∅ [Demo.row "channel-3" "channel-1" "foo-7" "STATE_INIT";
                      Demo.row "channel-8" "channel-2" "foo-7" "STATE_OPEN"]
  = Ok {[KStr "foo-7" := candidate (Some (PInt 8)) (Some (PInt 2)) "OPEN"]}.
Proof. reflexivity. Qed.

Lemma fallback_identity_witness :
  get_local_chain_id Cases.http "https://l.example" tt = (Ok (VStr "legacy-1"), tt).
Proof.
  destruct (get_local_chain_id_primary_then_fallback Cases.http "https://l.example" tt)
    as (_ & Hfallback & _).
  apply (Hfallback "HTTP Error 501: Not Implemented"
           [("block",
             VDict [("header", VDict [("chain_id", VStr "legacy-1"); ("height", VStr "5")])])]
           [("header", VDict [("chain_id", VStr "legacy-1"); ("height", VStr "5")])]
           [("chain_id", VStr "legacy-1"); ("height", VStr "5")] tt tt).
  - reflexivity.
  - reflexivity.
  - reflexivity.
  - reflexivity.
Defined.

Lemma counterparty_key_witness :
  exists k : hkey,
    hash_key (dict_get (Demo.row "channel-12" "channel-99" "osmosis-1" "OPEN")
                "counterparty_chain_id") = Ok k
    /\ match ({[KStr "osmosis-1" := "OSMO"]} : gmap hkey string) !! k with
       | Some symbol =>
           cp_key (Cand (KStr "OSMO") (Some (PInt 12)) (Some (PInt 99)) "OPEN")
           = KStr symbol
           /\ In symbol (map fst Demo.urls)
       | None =>
           cp_key (Cand (KStr "OSMO") (Some (PInt 12)) (Some (PInt 99)) "OPEN")
           = if truthy (dict_get (Demo.row "channel-12" "channel-99" "osmosis-1" "OPEN")
                          "counterparty_chain_id")
             then k else KStr "UNKNOWN"
       end
    /\ (truthy (dict_get (Demo.row "channel-12" "channel-99" "osmosis-1" "OPEN")
                  "counterparty_chain_id") = false ->
        cp_key (Cand (KStr "OSMO") (Some (PInt 12)) (Some (PInt 99)) "OPEN")
        = KStr "UNKNOWN").
Proof.
  apply (counterparty_key_priority Demo.http Demo.urls tt tt).
  - reflexivity.
  - reflexivity.
Defined.

(** A state listed as a number: the run is aborted. *)
Lemma numeric_state_witness :
  aggregate_loop Cases.http 1 ∅ [("N", "https://n.example/"); ("A", "https://a.example/")]
    ∅ tt
  = (Raise "'int' object has no attribute 'startswith'", tt).
Proof.
  apply (aggregation_error_aborts_run Cases.http 1 ∅ ∅ "N" "https://n.example/"
           [("A", "https://a.example/")] tt tt [] Cases.row_n [] ∅).
  - reflexivity.
  - reflexivity.
  - reflexivity.
Defined.

Lemma registry_covered_witness :
  is_Some (({["A" := {[KStr "OSMO" := candidate (Some (PInt 12)) (Some (PInt 99)) "OPEN"]};
             "OSMO" := ∅]} : gmap string (gmap hkey dict)) !! "OSMO")
  <-> In "OSMO" (map fst Demo.urls).
Proof.
  apply (aggregate_covers_registry Demo.http 1 Demo.urls tt tt).
  reflexivity.
Defined.


Lemma non_object_entry_witness :
  map_channels Cases.http 1 "https://m.example" "transfer" None 200 0 tt
  = (Raise "'str' object has no attribute 'get'", tt)
  /\ aggregate_endpoint Cases.http 1 ∅ ∅ ("M", "https://m.example/") tt
     = (Ok {["M" := {[KStr "__error__" :=
                        error_stub "'str' object has no attribute 'get'"]}]}, tt).
Proof.
  assert (H : is_object (VStr "channel-0") = false) by reflexivity.
  assert (Hp : paginate_channels Cases.http 1 (rstrip_slash "https://m.example/") 200 tt
               = (Ok ([Demo.channel_entry "channel-1" "STATE_OPEN"]
                        ++ VStr "channel-0" :: []), tt)) by reflexivity.
  assert (Hb : map_channels_loop Cases.http (rstrip_slash "https://m.example/")
                 "transfer" None 0 [Demo.channel_entry "channel-1" "STATE_OPEN"] [] tt
               = (Ok [Cases.stub_m], tt)) by reflexivity.
  exact (non_object_channel_aborts_fetch Cases.http 1 ∅ ∅ "M" "https://m.example/"
           [Demo.channel_entry "channel-1" "STATE_OPEN"] (VStr "channel-0") []
           [Cases.stub_m] tt tt tt H Hp Hb).
Defined.

Lemma channel_failure_witness :
  resolve_channel Cases.http "https://m.example" "transfer" None
    (Demo.channel_entry "channel-1" "STATE_OPEN") tt
  = (Raise "HTTP Error 404: Not Found", tt).
Proof.
  apply (channel_failure_recorded Cases.http "https://m.example" "transfer" None 0
           (Demo.entry_fields "channel-1" "STATE_OPEN") tt tt
           "HTTP Error 404: Not Found").
  - reflexivity.
  - reflexivity.
  - reflexivity.
Defined.

Lemma filters_witness :
  port_skipped "transfer" (dict_get Demo.row_b "port_id") = false
  /\ state_skipped (Some "STATE_OPEN") (dict_get Demo.row_b "state") = false.
Proof.
  apply (map_channels_rows_match_filters Demo.http 1 "https://b.example" "transfer"
           (Some "STATE_OPEN") 200 0 tt tt [Demo.row_b]).
  - reflexivity.
  - now left.
  - reflexivity.
Defined.

Lemma list_failure_witness :
  paginate_channels Cases.http 2 (rstrip_slash "https://f.example/") 200 tt
  = (Raise "HTTP Error 500: Internal Server Error", tt)
  /\ map_channels Cases.http 2 (rstrip_slash "https://f.example/") "transfer" None 200 0 tt
     = (Raise "HTTP Error 500: Internal Server Error", tt)
  /\ aggregate_endpoint Cases.http 2 ∅ ∅ ("F", "https://f.example/") tt
     = (Ok (<["F" := <[KStr "__error__" :=
                         error_stub "HTTP Error 500: Internal Server Error"]>
                      (default ∅ ((∅ : gmap string (gmap hkey dict)) !! "F"))]> ∅), tt).
Proof.
  apply (list_failure_discards_pages Cases.http 2 ∅ ∅ "F" "https://f.example/" tt tt 1).
  - eapply fetch_fails_later; [reflexivity|reflexivity|reflexivity|reflexivity|].
    apply fetch_fails_now. reflexivity.
  - lia.
Defined.


(** Five requests to [https://e.example/] and no end in sight. *)
Lemma endless_cursor_witness :
  fst (paginate_channels Endless.http 5 (rstrip_slash "https://e.example/") 200 tt)
  = Diverge
  /\ fst (map_channels Endless.http 5 (rstrip_slash "https://e.example/")
            "transfer" None 200 0 tt) = Diverge
  /\ fst (aggregate_endpoint Endless.http 5 ∅ ∅ ("E", "https://e.example/") tt)
     = Diverge.
Proof.
  apply (endless_cursor_never_returns Endless.http "https://e.example/" ∅ ∅ "E").
  intros key w.
  exists (Demo.page [Demo.channel_entry "channel-0" "STATE_OPEN"] (VStr "AAE=")),
    [Demo.channel_entry "channel-0" "STATE_OPEN"], (VStr "AAE="), w.
  split; [reflexivity|split; [reflexivity|split; reflexivity]].
Defined.
